(** * PostgresToCsvOperator: a shallow embedding and its properties

    The development follows
    [airflow/contrib/operators/postgres_to_csv_operator.py].

    - [PyStr]: the [str] methods the operator calls ([lower], [strip],
      [replace], [in], [split]) on strings of code points below 256.
    - [Py]: Python values, truthiness, exceptions and the state and
      exception monad in which the methods of the operator run.
    - [Sqlparse]: the token tree [sqlparse.parse] hands back, with the
      accessors the operator uses ([value], [get_identifiers]).
    - [Csv]: [csv.writer] with the default (excel) dialect.
    - [Operator]: [__init__], [_parse_sql_field_to_csv_header],
      [_extract_last_updated_value], [_get_csv_headers_from_sql],
      [_create_csv] and [execute].

    The database hooks, [sqlparse.parse] and the file system are outside
    the file under study; they are variables of the sections below. *)

From Stdlib Require Import String Ascii NArith ZArith Bool List Lia.
From stdpp Require Import base option list gmap strings pretty.

Open Scope string_scope.
Open Scope list_scope.

(** ** Python [str] primitives *)
Module PyStr.

(** Code point of a character. *)
Definition ord (c : ascii) : N := N_of_ascii c.
Definition chr (n : N) : ascii := ascii_of_N n.

(** [c.isspace()] for a code point below 256: TAB, LF, VT, FF, CR, the
    separators FS, GS, RS, US, SPACE, NEL and NBSP. *)
Definition isspace (c : ascii) : bool :=
  let n := ord c in
  (((9 <=? n) && (n <=? 13)) || ((28 <=? n) && (n <=? 32))
   || (n =? 133) || (n =? 160))%N.

(** [c.lower()] for a code point below 256: A-Z and the capital letters
    of the Latin-1 supplement (all of 0xC0-0xDE but the sign 0xD7). *)
Definition lower_char (c : ascii) : ascii :=
  let n := ord c in
  if (((65 <=? n) && (n <=? 90))
      || ((192 <=? n) && (n <=? 222) && negb (n =? 215)))%N
  then chr (n + 32)%N else c.

(** [s.lower()] *)
Fixpoint lower (s : string) : string :=
  match s with
  | EmptyString => EmptyString
  | String c s' => String (lower_char c) (lower s')
  end.

(** [s.lstrip()] *)
Fixpoint lstrip (s : string) : string :=
  match s with
  | EmptyString => EmptyString
  | String c s' => if isspace c then lstrip s' else s
  end.

(** [s.rstrip()]: a character is dropped when it is a space and all that
    follows it has been dropped. *)
Fixpoint rstrip (s : string) : string :=
  match s with
  | EmptyString => EmptyString
  | String c s' =>
      match rstrip s' with
      | EmptyString => if isspace c then EmptyString else String c EmptyString
      | r => String c r
      end
  end.

(** [s.strip()] *)
Definition strip (s : string) : string := rstrip (lstrip s).

(** [s.replace(c, '')] for a one-character [c]. *)
Fixpoint remove_char (c : ascii) (s : string) : string :=
  match s with
  | EmptyString => EmptyString
  | String d s' =>
      if Ascii.eqb c d then remove_char c s' else String d (remove_char c s')
  end.

(** [s[n:]] *)
Fixpoint drop (n : nat) (s : string) : string :=
  match n, s with
  | O, _ => s
  | S _, EmptyString => EmptyString
  | S n', String _ s' => drop n' s'
  end.

(** [sub in s] *)
Fixpoint contains (sub s : string) : bool :=
  String.prefix sub s
  || match s with
     | EmptyString => false
     | String _ s' => contains sub s'
     end.

(** [s.partition(sep)] when [sep] occurs in [s]: the text before the
    leftmost occurrence and the text after it. *)
Fixpoint partition (sep s : string) : option (string * string) :=
  if String.prefix sep s then Some (EmptyString, drop (String.length sep) s)
  else match s with
       | EmptyString => None
       | String c s' =>
           match partition sep s' with
           | Some (before, after) => Some (String c before, after)
           | None => None
           end
       end.

(** The loop of [s.split(sep)] for a non-empty [sep]: cut at the leftmost
    occurrence, go on in what follows it.  Each cut consumes a character,
    so [fuel] beyond the length of [s] is never used up. *)
Fixpoint split_loop (fuel : nat) (sep s : string) : list string :=
  match fuel with
  | O => [s]
  | S fuel' =>
      match partition sep s with
      | None => [s]
      | Some (before, after) => before :: split_loop fuel' sep after
      end
  end.

(** [s.split(sep)], [sep] not empty. *)
Definition split (sep s : string) : list string :=
  split_loop (S (String.length s)) sep s.

End PyStr.

(** ** Python values, exceptions, and the monad of a method body *)
Module Py.

(** A value a database column or a scalar argument holds.  [POther] stands
    for any further scalar (a [datetime], a [Decimal], a [float], ...),
    known by what [str()] and [bool()] make of it. *)
Inductive pyval : Type :=
  | PNone
  | PBool (b : bool)
  | PInt (z : Z)
  | PStr (s : string)
  | POther (str : string) (truth : bool).

(** An argument of the constructor that is meant to be a dict. *)
Inductive pyobj : Type :=
  | OScalar (v : pyval)
  | OList (l : list pyval)
  | ODict (d : gmap string pyval).

(** [bool(v)] *)
Definition truthy (v : pyval) : bool :=
  match v with
  | PNone => false
  | PBool b => b
  | PInt z => negb (z =? 0)%Z
  | PStr s => negb (String.eqb s "")
  | POther _ t => t
  end.

Definition truthy_obj (o : pyobj) : bool :=
  match o with
  | OScalar v => truthy v
  | OList l => match l with [] => false | _ :: _ => true end
  | ODict d => negb (bool_decide (d = ∅))
  end.

(** [isinstance(o, dict)] *)
Definition isinstance_dict (o : pyobj) : bool :=
  match o with ODict _ => true | _ => false end.

(** [str(v)], which is also what an f-string puts in place of [{v}]. *)
Definition str (v : pyval) : string :=
  match v with
  | PNone => "None"
  | PBool true => "True"
  | PBool false => "False"
  | PInt z => pretty z
  | PStr s => s
  | POther s _ => s
  end.

Inductive exn : Type :=
  | SyntaxError (msg : string)
  | TypeError
  | IndexError
  | AttributeError
  | OSError
  | DatabaseError (msg : string).

Inductive result (A : Type) : Type :=
  | Ok (a : A)
  | Raise (e : exn).
Arguments Ok {A} a.
Arguments Raise {A} e.

(** A method body: it reads and writes a state and returns or raises.  What
    was written before an exception stays written. *)
Definition M (St A : Type) : Type := St -> result A * St.

Definition ret {St A} (a : A) : M St A := fun st => (Ok a, st).
Definition raise {St A} (e : exn) : M St A := fun st => (Raise e, st).
Definition bind {St A B} (m : M St A) (k : A -> M St B) : M St B :=
  fun st =>
    match m st with
    | (Ok a, st') => k a st'
    | (Raise e, st') => (Raise e, st')
    end.
Definition get {St} : M St St := fun st => (Ok st, st).
Definition gets {St A} (f : St -> A) : M St A := fun st => (Ok (f st), st).
Definition modify {St} (f : St -> St) : M St unit := fun st => (Ok tt, f st).
Definition lift {St A} (r : result A) : M St A := fun st => (r, st).

#[global] Instance M_ret {St} : MRet (M St) := @ret St.
#[global] Instance M_bind {St} : MBind (M St) := fun A B k m => bind m k.

(** [when c m]: [if c: m] *)
Definition when {St} (c : bool) (m : M St unit) : M St unit :=
  if c then m else ret tt.

(** [for x in xs: body x] *)
Fixpoint for_each {St A} (xs : list A) (body : A -> M St unit) : M St unit :=
  match xs with
  | [] => ret tt
  | x :: xs' => bind (body x) (fun _ => for_each xs' body)
  end.

(** [xs[i]] on a list or tuple, [i >= 0] *)
Definition index {A} (xs : list A) (i : nat) : result A :=
  match xs !! i with
  | Some x => Ok x
  | None => Raise IndexError
  end.

(** [xs[-1]] *)
Definition index_last {A} (xs : list A) : result A :=
  match last xs with
  | Some x => Ok x
  | None => Raise IndexError
  end.

(** [row[i]] where [row] is what [fetchone()] gave: a tuple, or [None]
    which has no subscript. *)
Definition subscript {A} (row : option (list A)) (i : nat) : result A :=
  match row with
  | None => Raise TypeError
  | Some xs => index xs i
  end.

End Py.

(** ** The token tree of [sqlparse] *)
Module Sqlparse.

(** Token types ([sqlparse.tokens]) of leaf tokens. *)
Inductive ttype : Type :=
  | Whitespace | Newline | Punctuation | Keyword | DML
  | Name | Wildcard | Operator | Literal | Comment.

(** Classes of grouped tokens ([sqlparse.sql]). *)
Inductive group : Type :=
  | Identifier | IdentifierList | Function | Parenthesis
  | Where | Comparison | Operation.

#[warnings="-register-all"]
Inductive token : Type :=
  | Tok (ty : ttype) (text : string)
  | Grp (cls : group) (tokens : list token).

(** A [Statement] is given by its [tokens]. *)
Definition statement : Type := list token.

(** [token.value]: the text of a leaf, and for a group the texts of its
    leaves put together. *)
Fixpoint value (t : token) : string :=
  match t with
  | Tok _ s => s
  | Grp _ ts => fold_right (fun t' acc => value t' +:+ acc) "" ts
  end.

(** [str(statement)] *)
Definition text (stmt : statement) : string :=
  fold_right (fun t acc => value t +:+ acc) "" stmt.

(** [token.is_whitespace]: the type lies in [T.Whitespace]. *)
Definition is_whitespace (t : token) : bool :=
  match t with
  | Tok Whitespace _ | Tok Newline _ => true
  | _ => false
  end.

(** [token.match(T.Punctuation, ',')] *)
Definition is_comma (t : token) : bool :=
  match t with
  | Tok Punctuation s => String.eqb s ","
  | _ => false
  end.

(** [isinstance(token, sqlparse.sql.IdentifierList)] *)
Definition is_identifier_list (t : token) : bool :=
  match t with
  | Grp IdentifierList _ => true
  | _ => false
  end.

(** [IdentifierList.get_identifiers()]: the tokens of the list that are
    neither white space nor a comma. *)
Definition get_identifiers (ts : list token) : list token :=
  filter (fun t => negb (is_whitespace t || is_comma t) = true) ts.

End Sqlparse.

(** ** [csv.writer] with the excel dialect

    The file is opened in text mode; on a POSIX system, where Airflow
    runs, the line terminator reaches the file as the writer sends it. *)
Module Csv.
Import Py.

Definition delimiter : ascii := ","%char.
Definition quotechar : ascii := ascii_of_nat 34.
Definition CR : ascii := ascii_of_nat 13.
Definition LF : ascii := ascii_of_nat 10.
Definition lineterminator : string := String CR (String LF EmptyString).

(** The text of a field: nothing for [None], the string itself, [str()]
    of anything else. *)
Definition field_text (v : pyval) : string :=
  match v with
  | PNone => ""
  | _ => str v
  end.

(** QUOTE_MINIMAL: a character that asks for quotes. *)
Definition special (c : ascii) : bool :=
  Ascii.eqb c delimiter || Ascii.eqb c quotechar
  || Ascii.eqb c CR || Ascii.eqb c LF.

Fixpoint needs_quotes (s : string) : bool :=
  match s with
  | EmptyString => false
  | String c s' => special c || needs_quotes s'
  end.

(** doublequote: the quote character is written twice. *)
Fixpoint double_quotes (s : string) : string :=
  match s with
  | EmptyString => EmptyString
  | String c s' =>
      if Ascii.eqb c quotechar then String c (String c (double_quotes s'))
      else String c (double_quotes s')
  end.

Definition format_field (v : pyval) : string :=
  let s := field_text v in
  if needs_quotes s then String quotechar (double_quotes s +:+ String quotechar "")
  else s.

Fixpoint join (sep : string) (xs : list string) : string :=
  match xs with
  | [] => ""
  | [x] => x
  | x :: xs' => x +:+ sep +:+ join sep xs'
  end.

(** [writer.writerow(row)]: the line written.  A record made of a single
    empty field is written as a pair of quotes. *)
Definition writerow (row : list pyval) : string :=
  let rec := join (String delimiter "") (map format_field row) in
  (if String.eqb rec "" && negb (Nat.eqb (length row) 0)
   then String quotechar (String quotechar "") else rec)
  +:+ lineterminator.

(** [DictWriter(f, fieldnames=headers).writeheader()]: the row of the
    field names themselves. *)
Definition writeheader (fieldnames : list string) : string :=
  writerow (map PStr fieldnames).

End Csv.

(** ** The operator *)
Module Operator.
Import Py.

(** The attributes [__init__] sets on [self]. *)
Record operator : Type := {
  sql : string;
  postgres_conn_id : string;
  destination_conn_id : string;
  csv_file_path : string;
  parameters : pyobj;
  increment : bool;
  headers : option (list string);
  destination_table : string;
  last_modified_fname : string;
  last_updated_sql : string;
  default_last_updated_value : pyval
}.

(** The arguments of [__init__]. *)
Record init_args : Type := {
  arg_csv_file_path : string;
  arg_parameters : pyobj;
  arg_sql : string;
  arg_postgres_conn_id : string;
  arg_destination_conn_id : string;
  arg_destination_table : string;
  arg_last_modified_fname : string;
  arg_headers : option (list string);
  arg_increment : bool;
  arg_default_last_updated_value : pyval
}.

(** The defaults of the signature; [csv_file_path] has none. *)
Definition default_args (path : string) : init_args := {|
  arg_csv_file_path := path;
  arg_parameters := ODict ∅;
  arg_sql := "";
  arg_postgres_conn_id := "";
  arg_destination_conn_id := "";
  arg_destination_table := "";
  arg_last_modified_fname := "";
  arg_headers := None;
  arg_increment := false;
  arg_default_last_updated_value := PStr "1970-01-01 00:00:00+00:00"
|}.

(** [bool(s)] for a string attribute. *)
Definition nonempty (s : string) : bool := negb (String.eqb s "").

(** [bool(self.headers)]: [None] and the empty list are false. *)
Definition truthy_headers (h : option (list string)) : bool :=
  match h with
  | None | Some [] => false
  | Some (_ :: _) => true
  end.

(** [__init__], after [super().__init__] has returned. *)
Definition __init__ (a : init_args) : result operator :=
  let self := {|
    sql := arg_sql a;
    postgres_conn_id := arg_postgres_conn_id a;
    destination_conn_id := arg_destination_conn_id a;
    csv_file_path := arg_csv_file_path a;
    parameters := arg_parameters a;
    increment := arg_increment a;
    headers := arg_headers a;
    destination_table := arg_destination_table a;
    last_modified_fname := arg_last_modified_fname a;
    last_updated_sql :=
      "SELECT MAX({{ task.last_modified_fname }}) FROM {{ task.destination_table }}";
    default_last_updated_value := arg_default_last_updated_value a
  |} in
  if truthy_obj (parameters self) && negb (isinstance_dict (parameters self))
  then Raise (SyntaxError "Argument 'parameters' must be type - dict")
  else if increment self then
    if negb (nonempty (last_modified_fname self))
    then Raise (SyntaxError
      "Argument 'last_modified_fname' is required for incremental select")
    else if negb (nonempty (destination_table self))
    then Raise (SyntaxError
      "Argument 'destination_table' is required for incremental select")
    else Ok self
  else Ok self.

(** *** [_parse_sql_field_to_csv_header] *)

(** Line 90: [lower()], [strip()], then [replace] takes every double
    quote out. *)
Definition normalize (sql_field : string) : string :=
  PyStr.remove_char Csv.quotechar (PyStr.strip (PyStr.lower sql_field)).

(** Lines 91-92 *)
Definition keep_alias (csv_header : string) : result string :=
  if PyStr.contains " as " csv_header
  then index_last (PyStr.split " as " csv_header)
  else Ok csv_header.

(** Lines 93-94 *)
Definition drop_qualifier (csv_header : string) : result string :=
  if PyStr.contains "." csv_header
  then index (PyStr.split "." csv_header) 1
  else Ok csv_header.

(** Lines 95-96 *)
Definition second_word (csv_header : string) : result string :=
  if PyStr.contains " " csv_header
  then index (PyStr.split " " csv_header) 1
  else Ok csv_header.

Definition and_then {A B} (r : result A) (k : A -> result B) : result B :=
  match r with
  | Ok a => k a
  | Raise e => Raise e
  end.

Definition _parse_sql_field_to_csv_header (sql_field : string) : result string :=
  and_then (keep_alias (normalize sql_field)) (fun csv_header =>
  and_then (drop_qualifier csv_header) (fun csv_header =>
  second_word csv_header)).

(** *** The state a run works on *)

(** A round trip to a database: the connection, the statement, and the
    bind parameters when the call passes some. *)
Record query : Type := {
  q_conn : string;
  q_sql : string;
  q_parameters : option pyobj
}.

(** What a run leaves outside the operator: the queries sent so far, the
    lines logged so far, and the files with their text. *)
Record world : Type := {
  queries : list query;
  log : list string;
  files : gmap string string
}.

(** A method runs on [self] and on the world. *)
Record state : Type := {
  self : operator;
  outside : world
}.

Definition set_self (f : operator -> operator) (st : state) : state :=
  {| self := f (self st); outside := outside st |}.

Definition set_outside (f : world -> world) (st : state) : state :=
  {| self := self st; outside := f (outside st) |}.

Definition set_parameters (p : pyobj) (s : operator) : operator :=
  {| sql := sql s; postgres_conn_id := postgres_conn_id s;
     destination_conn_id := destination_conn_id s;
     csv_file_path := csv_file_path s; parameters := p;
     increment := increment s; headers := headers s;
     destination_table := destination_table s;
     last_modified_fname := last_modified_fname s;
     last_updated_sql := last_updated_sql s;
     default_last_updated_value := default_last_updated_value s |}.

Definition set_headers (h : option (list string)) (s : operator) : operator :=
  {| sql := sql s; postgres_conn_id := postgres_conn_id s;
     destination_conn_id := destination_conn_id s;
     csv_file_path := csv_file_path s; parameters := parameters s;
     increment := increment s; headers := h;
     destination_table := destination_table s;
     last_modified_fname := last_modified_fname s;
     last_updated_sql := last_updated_sql s;
     default_last_updated_value := default_last_updated_value s |}.

Definition add_query (q : query) (w : world) : world :=
  {| queries := queries w ++ [q]; log := log w; files := files w |}.

Definition add_log (msg : string) (w : world) : world :=
  {| queries := queries w; log := log w ++ [msg]; files := files w |}.

Definition set_files (f : gmap string string -> gmap string string)
    (w : world) : world :=
  {| queries := queries w; log := log w; files := f (files w) |}.

(** What lies outside the operator: the two calls of [PostgresHook] it
    makes, [sqlparse.parse], and whether [open(path, 'w')] goes through. *)
Record env : Type := {
  get_first : string -> string -> result (option (list pyval));
  get_records : string -> string -> pyobj -> result (list (list pyval));
  parse : string -> list Sqlparse.statement;
  writable : string -> bool
}.

(** [dict.update({k: v})] on whatever [self.parameters] holds; only a dict
    has the method. *)
Definition dict_update (o : pyobj) (k : string) (v : pyval) : result pyobj :=
  match o with
  | ODict d => Ok (ODict (<[k := v]> d))
  | _ => Raise AttributeError
  end.

(** [[f(x) for x in xs]] with an [f] that may raise. *)
Fixpoint map_result {A B} (f : A -> result B) (xs : list A) : result (list B) :=
  match xs with
  | [] => Ok []
  | x :: xs' =>
      and_then (f x) (fun y =>
      and_then (map_result f xs') (fun ys => Ok (y :: ys)))
  end.

(** The values [get_identifiers()] yields for an [IdentifierList], nothing
    for any other token (lines 139-142). *)
Definition fields_of_token (token : Sqlparse.token) : list string :=
  match token with
  | Sqlparse.Grp Sqlparse.IdentifierList ts =>
      map Sqlparse.value (Sqlparse.get_identifiers ts)
  | _ => []
  end.

Section Methods.
Variable E : env.

Definition log_info (msg : string) : M state unit :=
  modify (set_outside (add_log msg)).

(** [PostgresHook(postgres_conn_id=conn).get_first(sql=sql)] *)
Definition hook_get_first (conn sql : string) : M state (option (list pyval)) :=
  modify (set_outside (add_query
    {| q_conn := conn; q_sql := sql; q_parameters := None |}));;
  lift (get_first E conn sql).

(** [PostgresHook(postgres_conn_id=conn).get_records(sql=sql, parameters=p)] *)
Definition hook_get_records (conn sql : string) (p : pyobj)
    : M state (list (list pyval)) :=
  modify (set_outside (add_query
    {| q_conn := conn; q_sql := sql; q_parameters := Some p |}));;
  lift (get_records E conn sql p).

Definition _extract_last_updated_value : M state pyval :=
  s ← gets self;
  row ← hook_get_first (destination_conn_id s) (last_updated_sql s);
  last_updated_field ← lift (subscript row 0);
  if negb (truthy last_updated_field) then
    log_info ("Last event value not found, "
              +:+ "using default value - "
              +:+ str (default_last_updated_value s));;
    ret (default_last_updated_value s)
  else
    log_info ("Last event value was " +:+ str last_updated_field);;
    ret last_updated_field.

Definition _get_csv_headers_from_sql : M state (list string) :=
  s ← gets self;
  parsed_sql ← lift (index (parse E (sql s)) 0);
  let parsed_sql_fields := flat_map fields_of_token parsed_sql in
  lift (map_result _parse_sql_field_to_csv_header parsed_sql_fields).

(** [csv_file.write(text)] on the file opened at [path]. *)
Definition file_write (path text : string) : M state unit :=
  modify (set_outside (set_files (alter (fun old => old +:+ text) path))).

(** [open] either fails or leaves an empty file; [DictWriter.writeheader]
    needs field names it can iterate over. *)
Definition _create_csv (results : list (list pyval))
    (headers : option (list string)) : M state unit :=
  s ← gets self;
  let path := csv_file_path s in
  if writable E path then
    modify (set_outside (set_files (insert path "")));;
    match headers with
    | None => raise TypeError
    | Some fieldnames =>
        file_write path (Csv.writeheader fieldnames);;
        for_each results (fun row => file_write path (Csv.writerow row));;
        log_info "Finished creating csv file"
    end
  else raise OSError.

(** Lines 100-102: the watermark is put into [self.parameters]. *)
Definition bind_last_updated_value : M state unit :=
  s ← gets self;
  when (increment s) (
    last_updated_value ← _extract_last_updated_value;
    s ← gets self;
    p ← lift (dict_update (parameters s) "last_updated_value" last_updated_value);
    modify (set_self (set_parameters p))).

(** Lines 104-107: the main query. *)
Definition fetch_results : M state (list (list pyval)) :=
  s ← gets self;
  results ← hook_get_records (postgres_conn_id s) (sql s) (parameters s);
  when (match results with [] => true | _ :: _ => false end)
    (log_info "No data extracted");;
  ret results.

(** Lines 109-110: [self.headers] is assigned when it is not truthy. *)
Definition resolve_headers : M state unit :=
  s ← gets self;
  when (negb (truthy_headers (headers s))) (
    hs ← _get_csv_headers_from_sql;
    modify (set_self (set_headers (Some hs)))).

Definition execute : M state unit :=
  bind_last_updated_value;;
  results ← fetch_results;
  resolve_headers;;
  s ← gets self;
  _create_csv results (headers s).

(** A task from construction to the end of its run: [execute] is called
    on the operator [__init__] made, if it made one.  (Airflow renders the
    template fields in between; that step is not part of the operator.) *)
Definition construct_and_execute (a : init_args) (w : world)
    : result unit * world :=
  match __init__ a with
  | Raise e => (Raise e, w)
  | Ok s =>
      let (r, st) := execute {| self := s; outside := w |} in
      (r, outside st)
  end.

End Methods.

(** [E] with another parser. *)
Definition with_parse (f : string -> list Sqlparse.statement) (E : env) : env :=
  {| get_first := get_first E; get_records := get_records E; parse := f;
     writable := writable E |}.

(** The text of the data rows, in the order of [results]. *)
Definition rows_text (results : list (list pyval)) : string :=
  fold_right (fun row acc => Csv.writerow row +:+ acc) "" results.

(** The attributes of [s'] are those of [s], but for [parameters] and
    [headers] about which nothing is said. *)
Definition same_settings (s s' : operator) : Prop :=
  sql s' = sql s
  /\ postgres_conn_id s' = postgres_conn_id s
  /\ destination_conn_id s' = destination_conn_id s
  /\ csv_file_path s' = csv_file_path s
  /\ increment s' = increment s
  /\ destination_table s' = destination_table s
  /\ last_modified_fname s' = last_modified_fname s
  /\ last_updated_sql s' = last_updated_sql s
  /\ default_last_updated_value s' = default_last_updated_value s.

(** The query [_extract_last_updated_value] sends, and the one [execute]
    sends with the bind parameters [p]. *)
Definition watermark_query (s : operator) : query :=
  {| q_conn := destination_conn_id s; q_sql := last_updated_sql s;
     q_parameters := None |}.

Definition main_query (s : operator) (p : pyobj) : query :=
  {| q_conn := postgres_conn_id s; q_sql := sql s; q_parameters := Some p |}.

(** [st] with [fs] for its files. *)
Definition put_files (fs : gmap string string) (st : state) : state :=
  set_outside (set_files (fun _ => fs)) st.

(** The state once the resolver has sent its query and logged [msg]. *)
Definition after_watermark (msg : string) (st : state) : state :=
  set_outside (add_log msg)
    (set_outside (add_query (watermark_query (self st))) st).

End Operator.

(** ** Statements, connections and tasks to run the model on *)
Module Scenarios.
Import Py Sqlparse Operator.

Definition ws : token := Tok Whitespace " ".
Definition comma : token := Tok Punctuation ",".
Definition name (s : string) : token := Grp Identifier [Tok Name s].

(** [select a from t]: a lone column is an [Identifier]. *)
Definition select_one_column : statement :=
  [Tok DML "select"; ws; name "a"; ws; Tok Keyword "from"; ws; name "t"].

(** [select a, b from t1, t2]: the columns and the tables are each an
    [IdentifierList]. *)
Definition select_two_tables : statement :=
  [Tok DML "select"; ws; Grp IdentifierList [name "a"; comma; ws; name "b"];
   ws; Tok Keyword "from"; ws;
   Grp IdentifierList [name "t1"; comma; ws; name "t2"]].

(** [select * from t] *)
Definition select_star : statement :=
  [Tok DML "select"; ws; Tok Wildcard "*"; ws; Tok Keyword "from"; ws;
   name "t"].

(** [SELECT id, name AS customer FROM t] *)
Definition select_customers : statement :=
  [Tok DML "SELECT"; ws;
   Grp IdentifierList
     [name "id"; comma; ws;
      Grp Identifier [Tok Name "name"; ws; Tok Keyword "AS"; ws; name "customer"]];
   ws; Tok Keyword "FROM"; ws; name "t"].

(** A parser that knows the statements above; the empty text holds no
    statement, and any other text is handed back as one unparsed token. *)
Definition parse_known (text : string) : list statement :=
  if String.eqb text "select a from t" then [select_one_column]
  else if String.eqb text "select a, b from t1, t2" then [select_two_tables]
  else if String.eqb text "select * from t" then [select_star]
  else if String.eqb text "SELECT id, name AS customer FROM t"
       then [select_customers]
  else if String.eqb text "" then []
  else [[Tok Name text]].

(** A destination whose [MAX] is [found], a source that returns [rows],
    and a file system that lets every file be written. *)
Definition database (found : option (list pyval)) (rows : list (list pyval)) : env :=
  {| get_first := fun _ _ => Ok found;
     get_records := fun _ _ _ => Ok rows;
     parse := parse_known;
     writable := fun _ => true |}.

Definition nothing_yet : world :=
  {| queries := []; log := []; files := ∅ |}.

(** The operator of a task made with [sql], [headers], [increment] and
    [parameters] as given. *)
Definition task (text : string) (h : option (list string)) (inc : bool)
    (p : pyobj) : operator :=
  {| sql := text;
     postgres_conn_id := "source";
     destination_conn_id := "warehouse";
     csv_file_path := "/tmp/out.csv";
     parameters := p;
     increment := inc;
     headers := h;
     destination_table := "dest";
     last_modified_fname := "updated_at";
     last_updated_sql :=
       "SELECT MAX({{ task.last_modified_fname }}) FROM {{ task.destination_table }}";
     default_last_updated_value := PStr "1970-01-01 00:00:00+00:00" |}.

Definition start (s : operator) : state :=
  {| self := s; outside := nothing_yet |}.

(** The arguments of a construction with [parameters], [increment],
    [destination_table] and [last_modified_fname] as given. *)
Definition arguments (p : pyobj) (inc : bool) (table fname : string)
    : init_args :=
  {| arg_csv_file_path := "/tmp/out.csv";
     arg_parameters := p;
     arg_sql := "SELECT id, name AS customer FROM t";
     arg_postgres_conn_id := "source";
     arg_destination_conn_id := "warehouse";
     arg_destination_table := table;
     arg_last_modified_fname := fname;
     arg_headers := None;
     arg_increment := inc;
     arg_default_last_updated_value := PStr "1970-01-01 00:00:00+00:00" |}.

(** The field ["a"."b" AS "c"], quotes included. *)
Definition quoted_field : string :=
  let q := String Csv.quotechar "" in
  q +:+ "a" +:+ q +:+ "." +:+ q +:+ "b" +:+ q +:+ " AS " +:+ q +:+ "c" +:+ q.

End Scenarios.

(** ** The shape of a string *)
Module Shape.

(** [all(p(c) for c in s)] *)
Fixpoint all_chars (p : ascii -> bool) (s : string) : bool :=
  match s with
  | EmptyString => true
  | String c s' => p c && all_chars p s'
  end.

(** [d != c] *)
Definition is_not (c d : ascii) : bool := negb (Ascii.eqb c d).

Definition dot : ascii := "."%char.
Definition space : ascii := " "%char.

(** Neither a dot, nor a space, nor a double quote. *)
Definition plain (c : ascii) : bool :=
  is_not dot c && is_not space c && is_not Csv.quotechar c.

(** Neither a dot nor a space: a character of a bare name. *)
Definition name_char (c : ascii) : bool := is_not dot c && is_not space c.


End Shape.

(** ** Connections that fail *)
Module Faults.
Import Py Operator.

(** A source whose main query raises [e]; the rest as in
    [Scenarios.database]. *)
Definition broken_source (found : option (list pyval)) (e : exn) : env :=
  {| get_first := fun _ _ => Ok found;
     get_records := fun _ _ _ => Raise e;
     parse := Scenarios.parse_known;
     writable := fun _ => true |}.

(** A world in which [path] already holds [old]. *)
Definition with_file (path old : string) : world :=
  {| queries := []; log := []; files := {[path := old]} |}.

End Faults.

(** * Properties *)

(** ** [str.split] finds its pieces *)
Module PyStrFacts.
Import PyStr.

Lemma prefix_length (p s : string) :
  String.prefix p s = true -> String.length p <= String.length s.
Proof.
  revert s. induction p as [|c p IH]; intros [|d s]; simpl; try lia.
  destruct (ascii_dec c d); [|discriminate].
  intros H. apply IH in H. lia.
Qed.

Lemma drop_length (n : nat) (s : string) :
  String.length (drop n s) = String.length s - n.
Proof.
  revert s. induction n as [|n IH]; intros [|c s]; simpl; try lia.
  apply IH.
Qed.

Lemma partition_eq (sep s : string) :
  partition sep s =
    if String.prefix sep s then Some (EmptyString, drop (String.length sep) s)
    else match s with
         | EmptyString => None
         | String c s' =>
             match partition sep s' with
             | Some (before, after) => Some (String c before, after)
             | None => None
             end
         end.
Proof. destruct s; reflexivity. Qed.

Lemma contains_eq (sub s : string) :
  contains sub s =
    String.prefix sub s
    || match s with
       | EmptyString => false
       | String _ s' => contains sub s'
       end.
Proof. destruct s; reflexivity. Qed.

(** What follows a cut is shorter than what was cut. *)
Lemma partition_after_shorter (sep s before after : string) :
  sep <> EmptyString ->
  partition sep s = Some (before, after) ->
  String.length after < String.length s.
Proof.
  intros Hsep. revert before.
  induction s as [|c s IH]; intros before; rewrite partition_eq;
    destruct (String.prefix sep _) eqn:Hp; try discriminate.
  - destruct sep; [congruence|discriminate].
  - intros H. inversion H; subst. apply prefix_length in Hp.
    rewrite drop_length. destruct sep; [congruence|]. simpl in *. lia.
  - destruct (partition sep s) as [[b a]|] eqn:Hq; [|discriminate].
    intros H. inversion H; subst. specialize (IH b eq_refl). simpl. lia.
Qed.

(** The loop does not see fuel beyond the length of the string. *)
Lemma split_loop_fuel (sep : string) (f1 f2 : nat) (s : string) :
  sep <> EmptyString ->
  String.length s < f1 -> String.length s < f2 ->
  split_loop f1 sep s = split_loop f2 sep s.
Proof.
  intros Hsep. revert f2 s.
  induction f1 as [|f1 IH]; intros f2 s H1 H2; [lia|].
  destruct f2 as [|f2]; [lia|]. simpl.
  destruct (partition sep s) as [[b a]|] eqn:Hp; [|reflexivity].
  f_equal. pose proof (partition_after_shorter _ _ _ _ Hsep Hp).
  apply IH; lia.
Qed.

(** [split] is the loop run to its end: it cuts at the leftmost separator
    and splits what follows. *)
Lemma split_unfold (sep s : string) :
  sep <> EmptyString ->
  split sep s =
    match partition sep s with
    | None => [s]
    | Some (before, after) => before :: split sep after
    end.
Proof.
  intros Hsep. unfold split at 1. cbn [split_loop].
  destruct (partition sep s) as [[b a]|] eqn:Hp; [|reflexivity].
  f_equal. pose proof (partition_after_shorter _ _ _ _ Hsep Hp).
  unfold split. apply split_loop_fuel; [assumption|lia..].
Qed.

Lemma contains_partition (sep s : string) :
  contains sep s = true ->
  exists before after, partition sep s = Some (before, after).
Proof.
  induction s as [|c s IH]; rewrite contains_eq, partition_eq;
    destruct (String.prefix sep _); simpl; eauto; try discriminate.
  intros H. destruct (IH H) as (b & a & ->). eauto.
Qed.

Lemma not_contains_partition (sep s : string) :
  contains sep s = false -> partition sep s = None.
Proof.
  induction s as [|c s IH]; rewrite contains_eq, partition_eq;
    destruct (String.prefix sep _); simpl; try discriminate; auto.
  intros H. rewrite (IH H). reflexivity.
Qed.

Lemma split_loop_nonempty (fuel : nat) (sep s : string) :
  1 <= length (split_loop fuel sep s).
Proof.
  destruct fuel; simpl; [lia|].
  destruct (partition sep s) as [[b a]|]; simpl; lia.
Qed.

(** [sep in s] makes [s.split(sep)] at least two pieces long, so that the
    subscript [1] is in range. *)
Lemma split_contains_length (sep s : string) :
  contains sep s = true -> 2 <= length (split sep s).
Proof.
  intros H. destruct (contains_partition _ _ H) as (b & a & Hp).
  unfold split. simpl. rewrite Hp. simpl.
  pose proof (split_loop_nonempty (String.length s) sep a). lia.
Qed.

Lemma split_nonempty (sep s : string) : 1 <= length (split sep s).
Proof. apply split_loop_nonempty. Qed.

(** *** What the pieces are *)

Lemma append_assoc (a b c : string) : (a +:+ b) +:+ c = a +:+ (b +:+ c).
Proof.
  induction a as [|x a IH]; [reflexivity|].
  change (String x ((a +:+ b) +:+ c) = String x (a +:+ (b +:+ c))).
  f_equal. exact IH.
Qed.

Lemma append_empty_r (a : string) : a +:+ "" = a.
Proof.
  induction a as [|x a IH]; [reflexivity|].
  change (String x (a +:+ "") = String x a). f_equal. exact IH.
Qed.

Lemma append_cons (c : ascii) (a b : string) :
  String c a +:+ b = String c (a +:+ b).
Proof. reflexivity. Qed.

Lemma prefix_drop (p s : string) :
  String.prefix p s = true -> s = p +:+ drop (String.length p) s.
Proof.
  revert s. induction p as [|c p IH]; intros s; [reflexivity|].
  destruct s as [|d s]; simpl; [discriminate|].
  destruct (ascii_dec c d) as [->|]; [|discriminate].
  intros H. rewrite append_cons. f_equal. apply IH, H.
Qed.

Lemma prefix_append (p s t : string) :
  String.prefix p s = true -> String.prefix p (s +:+ t) = true.
Proof.
  revert s. induction p as [|c p IH]; intros s.
  - intros _. destruct (s +:+ t); reflexivity.
  - destruct s as [|d s]; simpl; [discriminate|].
    destruct (ascii_dec c d); [apply IH|discriminate].
Qed.

(** A cut takes the string apart around the separator. *)
Lemma partition_spec (sep s before after : string) :
  partition sep s = Some (before, after) ->
  s = before +:+ sep +:+ after.
Proof.
  revert before. induction s as [|c s IH]; intros before;
    rewrite partition_eq; destruct (String.prefix sep _) eqn:Hp;
    try discriminate.
  - intros H. inversion H; subst. apply (prefix_drop _ _ Hp).
  - intros H. inversion H; subst. apply (prefix_drop _ _ Hp).
  - destruct (partition sep s) as [[b a]|] eqn:Hq; [|discriminate].
    intros H. inversion H; subst. rewrite append_cons. f_equal.
    apply IH. reflexivity.
Qed.

(** The cut is at the leftmost separator: none lies in what comes before. *)
Lemma partition_before_clean (sep s before after : string) :
  sep <> EmptyString ->
  partition sep s = Some (before, after) ->
  contains sep before = false.
Proof.
  intros Hsep. revert before. induction s as [|c s IH]; intros before;
    rewrite partition_eq; destruct (String.prefix sep _) eqn:Hp;
    try discriminate.
  - intros H. inversion H; subst. destruct sep; [congruence|reflexivity].
  - intros H. inversion H; subst. destruct sep; [congruence|reflexivity].
  - destruct (partition sep s) as [[b a]|] eqn:Hq; [|discriminate].
    intros H. inversion H; subst. rewrite contains_eq.
    rewrite (IH b eq_refl), orb_false_r.
    destruct (String.prefix sep (String c b)) eqn:Hb; [|reflexivity].
    apply (prefix_append _ _ (sep +:+ after)) in Hb.
    rewrite append_cons, <- (partition_spec _ _ _ _ Hq) in Hb. congruence.
Qed.

Lemma partition_none_clean (sep s : string) :
  partition sep s = None -> contains sep s = false.
Proof.
  intros H. destruct (contains sep s) eqn:Hc; [|reflexivity].
  destruct (contains_partition _ _ Hc) as (b & a & Hp). congruence.
Qed.

(** The last piece of the loop holds no separator, and is either the whole
    string or what follows a separator in it. *)
Lemma split_loop_last (sep : string) (fuel : nat) :
  sep <> EmptyString ->
  forall s x,
    String.length s < fuel ->
    last (split_loop fuel sep s) = Some x ->
    contains sep x = false
    /\ (x = s \/ exists before, s = before +:+ sep +:+ x).
Proof.
  intros Hsep. induction fuel as [|fuel IH]; intros s x Hlen; [lia|].
  simpl. destruct (partition sep s) as [[b a]|] eqn:Hp.
  - pose proof (partition_after_shorter _ _ _ _ Hsep Hp) as Hs.
    pose proof (partition_spec _ _ _ _ Hp) as Heq.
    pose proof (split_loop_nonempty fuel sep a) as Hn.
    destruct (split_loop fuel sep a) as [|y ys] eqn:Hl; [simpl in Hn; lia|].
    rewrite last_cons_cons. intros Hx.
    destruct (IH a x ltac:(lia)) as (Hc & Hx'); [rewrite Hl; exact Hx|].
    split; [exact Hc|]. right. destruct Hx' as [->|(pre & ->)].
    + exists b. exact Heq.
    + exists (b +:+ sep +:+ pre). rewrite Heq, !append_assoc. reflexivity.
  - simpl. intros H. inversion H; subst.
    split; [apply partition_none_clean, Hp|left; reflexivity].
Qed.

(** The piece at index 1 lies between the first separator and the next
    one, or the end. *)
Lemma split_second (sep s x : string) :
  sep <> EmptyString ->
  split sep s !! 1 = Some x ->
  exists before after,
    partition sep s = Some (before, after)
    /\ x = match partition sep after with
           | Some (middle, _) => middle
           | None => after
           end.
Proof.
  intros Hsep. unfold split. cbn [split_loop].
  destruct (partition sep s) as [[b a]|] eqn:Hp; [|discriminate].
  pose proof (partition_after_shorter _ _ _ _ Hsep Hp) as Hs.
  destruct (String.length s) as [|n] eqn:Hn; [lia|].
  simpl. intros H. exists b, a. split; [reflexivity|].
  destruct (partition sep a) as [[m r]|]; simpl in H; congruence.
Qed.

End PyStrFacts.

(** ** The methods of the operator, phase by phase *)
Module OperatorFacts.
Import Py Operator PyStrFacts.

Ltac monad_unfold :=
  unfold mbind, M_bind, mret, M_ret, bind, ret, raise, gets, get, modify,
    lift, when in *.

(** *** The field parser never raises *)

Lemma index_in_range {A} (xs : list A) (i : nat) :
  i < length xs -> exists x, index xs i = Ok x.
Proof.
  intros H. unfold index.
  destruct (lookup_lt_is_Some_2 xs i H) as [x ->]. eauto.
Qed.

Lemma index_last_nonempty {A} (xs : list A) :
  1 <= length xs -> exists x, index_last xs = Ok x.
Proof.
  intros H. unfold index_last.
  destruct (last xs) as [x|] eqn:Hl; [eauto|].
  apply last_None in Hl. subst. simpl in H. lia.
Qed.

Lemma keep_alias_total (h : string) : exists h', keep_alias h = Ok h'.
Proof.
  unfold keep_alias. destruct (PyStr.contains " as " h); [|eauto].
  apply index_last_nonempty, split_nonempty.
Qed.

Lemma drop_qualifier_total (h : string) : exists h', drop_qualifier h = Ok h'.
Proof.
  unfold drop_qualifier. destruct (PyStr.contains "." h) eqn:Hc; [|eauto].
  apply index_in_range, split_contains_length, Hc.
Qed.

Lemma second_word_total (h : string) : exists h', second_word h = Ok h'.
Proof.
  unfold second_word. destruct (PyStr.contains " " h) eqn:Hc; [|eauto].
  apply index_in_range, split_contains_length, Hc.
Qed.

Lemma parse_sql_field_total (sql_field : string) :
  exists h, _parse_sql_field_to_csv_header sql_field = Ok h.
Proof.
  unfold _parse_sql_field_to_csv_header.
  destruct (keep_alias_total (normalize sql_field)) as [h1 ->]. simpl.
  destruct (drop_qualifier_total h1) as [h2 ->]. simpl.
  apply second_word_total.
Qed.

Lemma map_result_total {A B} (f : A -> result B) (xs : list A) :
  (forall x, exists y, f x = Ok y) ->
  exists ys, map_result f xs = Ok ys /\ length ys = length xs.
Proof.
  intros Hf. induction xs as [|x xs IH]; simpl; [eauto|].
  destruct (Hf x) as [y ->]. destruct IH as (ys & -> & Hlen). simpl.
  exists (y :: ys). simpl. auto.
Qed.

Lemma map_result_app {A B} (f : A -> result B) (xs ys : list A) xs' ys' :
  map_result f xs = Ok xs' -> map_result f ys = Ok ys' ->
  map_result f (xs ++ ys) = Ok (xs' ++ ys').
Proof.
  revert xs'. induction xs as [|x xs IH]; intros xs'; simpl.
  - intros H. inversion H. auto.
  - destruct (f x) as [y|]; simpl; [|discriminate].
    destruct (map_result f xs) as [zs|]; simpl; [|discriminate].
    intros H Hys. inversion H; subst. rewrite (IH zs eq_refl Hys). reflexivity.
Qed.

(** *** What each step of the field parser keeps *)

(** The alias: a text free of [ as ] that ends the header, right after an
    [ as ] when there is one. *)
Lemma keep_alias_spec (h x : string) :
  keep_alias h = Ok x ->
  PyStr.contains " as " x = false
  /\ (x = h \/ exists before, h = before +:+ " as " +:+ x).
Proof.
  unfold keep_alias. destruct (PyStr.contains " as " h) eqn:Hc.
  - unfold index_last, PyStr.split.
    destruct (last _) as [y|] eqn:Hl; [|discriminate].
    intros H. inversion H; subst.
    apply (split_loop_last " as " (S (String.length h))) in Hl;
      [exact Hl|discriminate|lia].
  - intros H. inversion H; subst. auto.
Qed.

(** The unqualified name: what stands between the first dot and the next
    one, or the end. *)
Lemma drop_qualifier_spec (h x : string) :
  drop_qualifier h = Ok x ->
  if PyStr.contains "." h then
    exists before after,
      PyStr.partition "." h = Some (before, after)
      /\ x = match PyStr.partition "." after with
             | Some (middle, _) => middle
             | None => after
             end
  else x = h.
Proof.
  unfold drop_qualifier, index. destruct (PyStr.contains "." h).
  - destruct (PyStr.split "." h !! 1) as [y|] eqn:Hl; [|discriminate].
    intros H. inversion H; subst. apply split_second in Hl; [exact Hl|].
    discriminate.
  - intros H. inversion H. reflexivity.
Qed.

(** The second word: what stands between the first space and the next
    one, or the end. *)
Lemma second_word_spec (h x : string) :
  second_word h = Ok x ->
  if PyStr.contains " " h then
    exists before after,
      PyStr.partition " " h = Some (before, after)
      /\ x = match PyStr.partition " " after with
             | Some (middle, _) => middle
             | None => after
             end
  else x = h.
Proof.
  unfold second_word, index. destruct (PyStr.contains " " h).
  - destruct (PyStr.split " " h !! 1) as [y|] eqn:Hl; [|discriminate].
    intros H. inversion H; subst. apply split_second in Hl; [exact Hl|].
    discriminate.
  - intros H. inversion H. reflexivity.
Qed.

(** *** [_extract_last_updated_value] *)

Lemma extract_row (E : env) (st : state) (v : pyval) (rest : list pyval) :
  get_first E (destination_conn_id (self st)) (last_updated_sql (self st))
    = Ok (Some (v :: rest)) ->
  exists msg,
    _extract_last_updated_value E st
    = (Ok (if truthy v then v else default_last_updated_value (self st)),
       after_watermark msg st).
Proof.
  intros H. unfold _extract_last_updated_value, hook_get_first, log_info.
  monad_unfold. simpl. rewrite H. simpl.
  destruct (truthy v); simpl; eexists; reflexivity.
Qed.

Lemma extract_no_row (E : env) (st : state) :
  get_first E (destination_conn_id (self st)) (last_updated_sql (self st))
    = Ok None ->
  _extract_last_updated_value E st
  = (Raise TypeError, set_outside (add_query (watermark_query (self st))) st).
Proof.
  intros H. unfold _extract_last_updated_value, hook_get_first, log_info.
  monad_unfold. simpl. rewrite H. reflexivity.
Qed.

(** The resolver leaves [self] alone, whatever comes of it. *)
Lemma extract_self (E : env) (st : state) :
  self (snd (_extract_last_updated_value E st)) = self st.
Proof.
  unfold _extract_last_updated_value, hook_get_first, log_info.
  monad_unfold. simpl.
  destruct (get_first E _ _) as [[[|v rest]|]|e]; simpl; try reflexivity.
  destruct (truthy v); reflexivity.
Qed.

Lemma extract_queries (E : env) (st : state) :
  queries (outside (snd (_extract_last_updated_value E st)))
  = queries (outside st) ++ [watermark_query (self st)].
Proof.
  unfold _extract_last_updated_value, hook_get_first, log_info.
  monad_unfold. simpl.
  destruct (get_first E _ _) as [[[|v rest]|]|e]; simpl; try reflexivity.
  destruct (truthy v); reflexivity.
Qed.

(** *** [_get_csv_headers_from_sql] *)

Lemma headers_from_sql_state (E : env) (st : state) :
  snd (_get_csv_headers_from_sql E st) = st.
Proof.
  unfold _get_csv_headers_from_sql. monad_unfold. simpl.
  destruct (index (parse E (sql (self st))) 0); reflexivity.
Qed.

Lemma headers_from_sql_statement (E : env) (st : state) stmt rest :
  parse E (sql (self st)) = stmt :: rest ->
  exists hs,
    _get_csv_headers_from_sql E st = (Ok hs, st)
    /\ map_result _parse_sql_field_to_csv_header (flat_map fields_of_token stmt)
       = Ok hs
    /\ length hs = length (flat_map fields_of_token stmt).
Proof.
  intros Hp. unfold _get_csv_headers_from_sql. monad_unfold. simpl.
  rewrite Hp. simpl.
  destruct (map_result_total _parse_sql_field_to_csv_header
              (flat_map fields_of_token stmt) parse_sql_field_total)
    as (hs & Hm & Hl).
  exists hs. rewrite Hm. auto.
Qed.

Lemma headers_from_sql_no_statement (E : env) (st : state) :
  parse E (sql (self st)) = [] ->
  _get_csv_headers_from_sql E st = (Raise IndexError, st).
Proof.
  intros Hp. unfold _get_csv_headers_from_sql. monad_unfold. simpl.
  rewrite Hp. reflexivity.
Qed.

(** A statement without an [IdentifierList] gives no field. *)
Lemma no_identifier_list_no_field (stmt : Sqlparse.statement) :
  forallb (fun t => negb (Sqlparse.is_identifier_list t)) stmt = true ->
  flat_map fields_of_token stmt = [].
Proof.
  induction stmt as [|t stmt IH]; simpl; [reflexivity|].
  intros H. apply andb_true_iff in H as [Ht Hs]. rewrite (IH Hs).
  destruct t as [ty s|[] ts]; simpl in *; try reflexivity. discriminate.
Qed.

(** *** [_create_csv] *)

Lemma file_write_run (path text : string) (st : state) :
  file_write path text st
  = (Ok tt,
     set_outside (set_files (alter (fun old => old +:+ text) path)) st).
Proof. reflexivity. Qed.

Lemma write_rows (path : string) (rs : list (list pyval)) :
  forall (st : state) (c : string) (m : gmap string string),
    files (outside st) = <[path := c]> m ->
    for_each rs (fun row => file_write path (Csv.writerow row)) st
    = (Ok tt, put_files (<[path := c +:+ rows_text rs]> m) st).
Proof.
  induction rs as [|row rs IH]; intros st c m Hf; simpl.
  - rewrite append_empty_r, <- Hf. destruct st as [s [q l f]]. reflexivity.
  - unfold bind, file_write at 1, modify.
    set (st1 := set_outside _ st).
    assert (files (outside st1) = <[path := c +:+ Csv.writerow row]> m) as H1.
    { subst st1. simpl. rewrite Hf, alter_insert_eq. reflexivity. }
    rewrite (IH st1 _ m H1), append_assoc. reflexivity.
Qed.

Lemma create_csv_written (E : env) (st : state) rs hs :
  writable E (csv_file_path (self st)) = true ->
  _create_csv E rs (Some hs) st
  = (Ok tt,
     set_outside (add_log "Finished creating csv file")
       (put_files (<[csv_file_path (self st)
                     := Csv.writeheader hs +:+ rows_text rs]>
                   (files (outside st))) st)).
Proof.
  intros Hw. unfold _create_csv, log_info. monad_unfold. cbv beta iota.
  rewrite Hw, file_write_run.
  erewrite write_rows.
  - simpl. reflexivity.
  - simpl. rewrite alter_insert_eq. reflexivity.
Qed.

Lemma create_csv_refused (E : env) (st : state) rs h :
  writable E (csv_file_path (self st)) = false ->
  _create_csv E rs h st = (Raise OSError, st).
Proof.
  intros Hw. unfold _create_csv. monad_unfold. simpl. rewrite Hw. reflexivity.
Qed.

(** Writing the file touches neither [self] nor the queries. *)
Lemma for_each_write_frame (path : string) (rs : list (list pyval)) (st : state) :
  let out := for_each rs (fun row => file_write path (Csv.writerow row)) st in
  fst out = Ok tt
  /\ self (snd out) = self st
  /\ queries (outside (snd out)) = queries (outside st).
Proof.
  revert st. induction rs as [|row rs IH]; intros st; simpl; [auto|].
  unfold bind, file_write at 1, modify.
  specialize (IH (set_outside
    (set_files (alter (fun old => old +:+ Csv.writerow row) path)) st)).
  simpl in IH. exact IH.
Qed.

Lemma create_csv_frame (E : env) (st : state) rs h :
  self (snd (_create_csv E rs h st)) = self st
  /\ queries (outside (snd (_create_csv E rs h st))) = queries (outside st).
Proof.
  unfold _create_csv, log_info. monad_unfold. cbv beta iota.
  destruct (writable E _); [|auto].
  destruct h as [hs|]; [|auto].
  rewrite file_write_run.
  match goal with |- context [for_each rs ?b ?s] =>
    pose proof (for_each_write_frame (csv_file_path (self st)) rs s) as H;
    simpl in H; destruct (for_each rs b s) as [[[]|e] st'] end;
  simpl in *; destruct H as (_ & -> & ->); auto.
Qed.

(** *** The phases of [execute] *)

Lemma bind_last_updated_value_eq (E : env) (st : state) :
  bind_last_updated_value E st =
    if increment (self st) then
      match _extract_last_updated_value E st with
      | (Ok v, st1) =>
          match dict_update (parameters (self st1)) "last_updated_value" v with
          | Ok p => (Ok tt, set_self (set_parameters p) st1)
          | Raise e => (Raise e, st1)
          end
      | (Raise e, st1) => (Raise e, st1)
      end
    else (Ok tt, st).
Proof.
  unfold bind_last_updated_value. monad_unfold. cbv beta iota.
  destruct (increment (self st)); [|reflexivity].
  destruct (_extract_last_updated_value E st) as [[v|e] st1]; [|reflexivity].
  destruct (dict_update _ _ v); reflexivity.
Qed.

Lemma fetch_results_eq (E : env) (st : state) :
  fetch_results E st =
    let st1 :=
      set_outside (add_query (main_query (self st) (parameters (self st)))) st in
    match get_records E (postgres_conn_id (self st)) (sql (self st))
            (parameters (self st)) with
    | Ok [] => (Ok [], set_outside (add_log "No data extracted") st1)
    | Ok (row :: rows) => (Ok (row :: rows), st1)
    | Raise e => (Raise e, st1)
    end.
Proof.
  unfold fetch_results, hook_get_records, log_info. monad_unfold.
  cbv beta iota zeta.
  destruct (get_records E _ _ _) as [[|row rows]|e]; reflexivity.
Qed.

Lemma resolve_headers_eq (E : env) (st : state) :
  resolve_headers E st =
    if truthy_headers (headers (self st)) then (Ok tt, st)
    else match _get_csv_headers_from_sql E st with
         | (Ok hs, st1) => (Ok tt, set_self (set_headers (Some hs)) st1)
         | (Raise e, st1) => (Raise e, st1)
         end.
Proof.
  unfold resolve_headers. monad_unfold. cbv beta iota.
  destruct (truthy_headers _); [reflexivity|]. cbn [negb]. cbv beta iota.
  destruct (_get_csv_headers_from_sql E st) as [[hs|e] st1]; reflexivity.
Qed.

Lemma execute_eq (E : env) (st : state) :
  execute E st =
    match bind_last_updated_value E st with
    | (Ok _, st1) =>
        match fetch_results E st1 with
        | (Ok results, st2) =>
            match resolve_headers E st2 with
            | (Ok _, st3) => _create_csv E results (headers (self st3)) st3
            | (Raise e, st3) => (Raise e, st3)
            end
        | (Raise e, st2) => (Raise e, st2)
        end
    | (Raise e, st1) => (Raise e, st1)
    end.
Proof.
  unfold execute. monad_unfold. cbv beta iota.
  destruct (bind_last_updated_value E st) as [[[]|e] st1]; [|reflexivity].
  destruct (fetch_results E st1) as [[rs|e] st2]; [|reflexivity].
  destruct (resolve_headers E st2) as [[[]|e] st3]; reflexivity.
Qed.

(** What each phase leaves of [self] and of the queries. *)

Lemma same_settings_refl (s : operator) : same_settings s s.
Proof. unfold same_settings. tauto. Qed.

Lemma same_settings_trans (s1 s2 s3 : operator) :
  same_settings s1 s2 -> same_settings s2 s3 -> same_settings s1 s3.
Proof. unfold same_settings. intuition congruence. Qed.

Lemma bind_last_updated_value_frame (E : env) (st : state) :
  let st1 := snd (bind_last_updated_value E st) in
  same_settings (self st) (self st1)
  /\ headers (self st1) = headers (self st)
  /\ (increment (self st) = false -> st1 = st)
  /\ queries (outside st1)
     = queries (outside st)
       ++ (if increment (self st) then [watermark_query (self st)] else []).
Proof.
  cbv zeta. rewrite bind_last_updated_value_eq.
  destruct (increment (self st)) eqn:Hi; simpl.
  2:{ rewrite app_nil_r. auto using same_settings_refl. }
  pose proof (extract_self E st) as Hs.
  pose proof (extract_queries E st) as Hq.
  destruct (_extract_last_updated_value E st) as [[v|e] st1]; simpl in *.
  - destruct (dict_update (parameters (self st1)) _ v) as [p|e]; simpl;
      rewrite ?Hs, ?Hq; repeat split; try congruence; try discriminate.
  - rewrite Hs, Hq. repeat split; try congruence; try discriminate.
Qed.

Lemma fetch_results_frame (E : env) (st : state) :
  self (snd (fetch_results E st)) = self st
  /\ queries (outside (snd (fetch_results E st)))
     = queries (outside st) ++ [main_query (self st) (parameters (self st))].
Proof.
  rewrite fetch_results_eq. cbv zeta.
  destruct (get_records E _ _ _) as [[|row rows]|e]; simpl; auto.
Qed.

Lemma resolve_headers_frame (E : env) (st : state) :
  let st1 := snd (resolve_headers E st) in
  same_settings (self st) (self st1)
  /\ parameters (self st1) = parameters (self st)
  /\ (truthy_headers (headers (self st)) = true -> st1 = st)
  /\ outside st1 = outside st.
Proof.
  cbv zeta. rewrite resolve_headers_eq.
  destruct (truthy_headers _); simpl; [auto using same_settings_refl|].
  pose proof (headers_from_sql_state E st) as Hs.
  destruct (_get_csv_headers_from_sql E st) as [[hs|e] st1]; simpl in *;
    subst st1; repeat split; try discriminate.
Qed.

(** Once the rows are fetched, what is left of [execute] sends no query,
    keeps the parameters, and changes [headers] only when it was not
    truthy. *)
Lemma finish_frame (E : env) (rs : list (list pyval)) (st2 : state) :
  let out :=
    match resolve_headers E st2 with
    | (Ok _, st3) => _create_csv E rs (headers (self st3)) st3
    | (Raise e, st3) => (Raise e, st3)
    end in
  same_settings (self st2) (self (snd out))
  /\ parameters (self (snd out)) = parameters (self st2)
  /\ (truthy_headers (headers (self st2)) = true ->
      headers (self (snd out)) = headers (self st2))
  /\ queries (outside (snd out)) = queries (outside st2).
Proof.
  cbv zeta. pose proof (resolve_headers_frame E st2) as (Hs & Hp & Hh & Ho).
  destruct (resolve_headers E st2) as [[[]|e] st3]; simpl in *.
  - destruct (create_csv_frame E st3 rs (headers (self st3))) as [-> ->].
    rewrite Ho. split; [exact Hs|]. split; [exact Hp|]. split; [|reflexivity].
    intros Ht. rewrite (Hh Ht). reflexivity.
  - rewrite Ho. split; [exact Hs|]. split; [exact Hp|]. split; [|reflexivity].
    intros Ht. rewrite (Hh Ht). reflexivity.
Qed.

Lemma execute_frame (E : env) (st : state) :
  let st' := snd (execute E st) in
  same_settings (self st) (self st')
  /\ (increment (self st) = false ->
      parameters (self st') = parameters (self st))
  /\ (truthy_headers (headers (self st)) = true ->
      headers (self st') = headers (self st)).
Proof.
  cbv zeta. rewrite execute_eq.
  pose proof (bind_last_updated_value_frame E st) as (Hs & Hh & Hi & _).
  destruct (bind_last_updated_value E st) as [[[]|e] st1]; simpl in *.
  2:{ split; [exact Hs|]. split; [|intros _; exact Hh].
      intros H. rewrite (Hi H). reflexivity. }
  pose proof (fetch_results_frame E st1) as (Hf & _).
  destruct (fetch_results E st1) as [[rs|e] st2]; simpl in *.
  2:{ rewrite Hf. split; [exact Hs|]. split; [|intros _; exact Hh].
      intros H. rewrite (Hi H). reflexivity. }
  pose proof (finish_frame E rs st2) as (Hs2 & Hp2 & Hh2 & _). cbv zeta in *.
  rewrite Hf in *. split; [|split].
  - eapply same_settings_trans; eauto.
  - intros H. rewrite Hp2, (Hi H). reflexivity.
  - intros H. rewrite Hh in Hh2. exact (Hh2 H).
Qed.

End OperatorFacts.

(** * The claims of the specification *)

Import Py Operator PyStrFacts OperatorFacts Scenarios.

(** The statements of [Scenarios] read back as the texts they stand for. *)
Example statement_texts :
  Sqlparse.text select_one_column = "select a from t"
  /\ Sqlparse.text select_two_tables = "select a, b from t1, t2"
  /\ Sqlparse.text select_star = "select * from t"
  /\ Sqlparse.text select_customers = "SELECT id, name AS customer FROM t".
Proof. repeat split. Qed.

(** ** The watermark resolver *)

(** C1, as stated, fails when the query yields no row: [get_first] hands
    back [None], the subscript [[0]] raises [TypeError], and the default is
    not returned. *)
Lemma watermark_no_row_raises :
  let st := start (task "SELECT id, name AS customer FROM t" None true (ODict ∅)) in
  get_first (database None []) (destination_conn_id (self st))
    (last_updated_sql (self st)) = Ok None
  /\ fst (_extract_last_updated_value (database None []) st) = Raise TypeError
  /\ fst (_extract_last_updated_value (database None []) st)
     <> Ok (default_last_updated_value (self st)).
Proof. cbv zeta. repeat split. discriminate. Qed.

(** C1, amended: when the scalar query yields a row, the resolver returns
    the configured default if the first value of the row is falsy (null,
    empty, zero), and that value unchanged otherwise; [self] is as before. *)
Theorem watermark_resolver_returns (E : env) (st : state)
    (v : pyval) (rest : list pyval) :
  get_first E (destination_conn_id (self st)) (last_updated_sql (self st))
    = Ok (Some (v :: rest)) ->
  fst (_extract_last_updated_value E st)
    = Ok (if truthy v then v else default_last_updated_value (self st))
  /\ self (snd (_extract_last_updated_value E st)) = self st.
Proof.
  intros H. destruct (extract_row E st v rest H) as [msg ->].
  split; reflexivity.
Qed.

Lemma watermark_resolver_returns_witness :
  let st := start (task "SELECT id, name AS customer FROM t" None true (ODict ∅)) in
  (fst (_extract_last_updated_value (database (Some [PNone]) []) st)
     = Ok (PStr "1970-01-01 00:00:00+00:00")
   /\ self (snd (_extract_last_updated_value (database (Some [PNone]) []) st))
      = self st)
  /\ (fst (_extract_last_updated_value (database (Some [PInt 42]) []) st)
      = Ok (PInt 42)
     /\ self (snd (_extract_last_updated_value (database (Some [PInt 42]) []) st))
        = self st).
Proof.
  cbv zeta. split.
  - exact (watermark_resolver_returns (database (Some [PNone]) []) _ PNone []
             eq_refl).
  - exact (watermark_resolver_returns (database (Some [PInt 42]) []) _
             (PInt 42) [] eq_refl).
Defined.

(** ** The field parser *)

(** C2: the fields [a.b], [a.b as c], the quoted ["a"."b" AS "c"] and
    [a b] give the headers [b], [c], [c] and [b]; and every field goes
    through the same steps in the same order: lower case, trimmed and
    stripped of double quotes, then the text after the last [ as ], then the
    piece after the first dot, then the piece at index 1 of the split at
    spaces. *)
Theorem parse_sql_field_examples :
  _parse_sql_field_to_csv_header "a.b" = Ok "b"
  /\ _parse_sql_field_to_csv_header "a.b as c" = Ok "c"
  /\ _parse_sql_field_to_csv_header quoted_field = Ok "c"
  /\ _parse_sql_field_to_csv_header "a b" = Ok "b"
  /\ normalize quoted_field = "a.b as c"
  /\ forall sql_field,
       _parse_sql_field_to_csv_header sql_field
       = and_then (keep_alias (normalize sql_field)) (fun aliased =>
         and_then (drop_qualifier aliased) (fun unqualified =>
         second_word unqualified)).
Proof. repeat split. Qed.

(** ** Header derivation *)

(** C3 fails on the code.  For [select a from t] the parser groups the lone
    column as an [Identifier], the loop skips it, and no header comes out
    where the claim has one; for [select a, b from t1, t2] the list of
    tables is an [IdentifierList] too, and four headers come out where the
    claim has two. *)
Theorem headers_from_sql_miscounts :
  parse (database None []) "select a from t" = [select_one_column]
  /\ fst (_get_csv_headers_from_sql (database None [])
            (start (task "select a from t" None false (ODict ∅))))
     = Ok []
  /\ parse (database None []) "select a, b from t1, t2" = [select_two_tables]
  /\ fst (_get_csv_headers_from_sql (database None [])
            (start (task "select a, b from t1, t2" None false (ODict ∅))))
     = Ok ["a"; "b"; "t1"; "t2"].
Proof. repeat split. Qed.

(** X10: what the derivation does deliver: when the select list is the one
    [IdentifierList] among the tokens of the first statement, the headers
    are those of its identifiers, one each and in their order. *)
Lemma headers_from_sql_one_list (E : env) (st : state)
    (before after ts : list Sqlparse.token) (rest : list Sqlparse.statement) :
  parse E (sql (self st))
    = (before ++ Sqlparse.Grp Sqlparse.IdentifierList ts :: after) :: rest ->
  forallb (fun t => negb (Sqlparse.is_identifier_list t)) before = true ->
  forallb (fun t => negb (Sqlparse.is_identifier_list t)) after = true ->
  exists hs,
    _get_csv_headers_from_sql E st = (Ok hs, st)
    /\ map_result _parse_sql_field_to_csv_header
         (map Sqlparse.value (Sqlparse.get_identifiers ts)) = Ok hs
    /\ length hs = length (Sqlparse.get_identifiers ts).
Proof.
  intros Hp Hb Ha.
  destruct (headers_from_sql_statement E st _ rest Hp) as (hs & Hr & Hm & Hl).
  rewrite flat_map_app in Hm, Hl. simpl in Hm, Hl.
  rewrite (no_identifier_list_no_field before Hb),
    (no_identifier_list_no_field after Ha), app_nil_r in Hm, Hl.
  simpl in Hm, Hl. rewrite length_map in Hl. eauto.
Qed.

Example headers_of_customers :
  fst (_get_csv_headers_from_sql (database None [])
         (start (task "SELECT id, name AS customer FROM t" None false (ODict ∅))))
  = Ok ["id"; "customer"].
Proof. reflexivity. Qed.

(** ** Construction *)

(** C5: with [increment] set and an empty [last_modified_fname] or
    [destination_table], [__init__] raises [SyntaxError] (the
    configuration error of the specification); no operator exists, so
    [execute] is not reached and the world, its queries among it, is as it
    was. *)
Theorem init_incremental_requires_names (a : init_args) :
  arg_increment a = true ->
  arg_last_modified_fname a = "" \/ arg_destination_table a = "" ->
  exists msg,
    __init__ a = Raise (SyntaxError msg)
    /\ forall E w, construct_and_execute E a w = (Raise (SyntaxError msg), w).
Proof.
  intros Hi Hn.
  assert (exists msg, __init__ a = Raise (SyntaxError msg)) as [msg Hm].
  { unfold __init__. cbn [parameters increment last_modified_fname
      destination_table]. rewrite Hi.
    destruct (truthy_obj _ && negb _); [eauto|].
    destruct Hn as [-> | ->]; cbn; [eauto|].
    destruct (negb (nonempty _)); eauto. }
  exists msg. split; [exact Hm|].
  intros E w. unfold construct_and_execute. rewrite Hm. reflexivity.
Qed.

Lemma init_incremental_requires_names_witness :
  exists msg,
    __init__ (arguments (ODict ∅) true "" "updated_at")
      = Raise (SyntaxError msg)
    /\ forall E w,
         construct_and_execute E (arguments (ODict ∅) true "" "updated_at") w
         = (Raise (SyntaxError msg), w).
Proof.
  exact (init_incremental_requires_names
           (arguments (ODict ∅) true "" "updated_at") eq_refl
           (or_intror eq_refl)).
Defined.

(** C9, as stated, fails for an argument that is not a dict but is falsy:
    the empty list and [None] are accepted. *)
Lemma init_accepts_falsy_non_dict :
  isinstance_dict (OList []) = false
  /\ (exists s, __init__ (arguments (OList []) false "" "") = Ok s)
  /\ isinstance_dict (OScalar PNone) = false
  /\ (exists s, __init__ (arguments (OScalar PNone) false "" "") = Ok s).
Proof. repeat split; eexists; reflexivity. Qed.

(** C9, amended: a [parameters] argument that is truthy (not [None], not
    empty) and is not a dict makes [__init__] raise [SyntaxError]. *)
Theorem init_rejects_truthy_non_dict (a : init_args) :
  truthy_obj (arg_parameters a) = true ->
  isinstance_dict (arg_parameters a) = false ->
  __init__ a = Raise (SyntaxError "Argument 'parameters' must be type - dict").
Proof.
  intros Ht Hd. unfold __init__. cbn [parameters]. rewrite Ht, Hd. reflexivity.
Qed.

Lemma init_rejects_truthy_non_dict_witness :
  __init__ (arguments (OList [PInt 1]) false "" "")
  = Raise (SyntaxError "Argument 'parameters' must be type - dict").
Proof.
  exact (init_rejects_truthy_non_dict (arguments (OList [PInt 1]) false "" "")
           eq_refl eq_refl).
Defined.

(** C8, as stated, fails when the parser finds no statement in the text
    (the empty text, which is also the default of [sql]): the subscript
    [[0]] raises [IndexError]. *)
Lemma headers_from_sql_no_statement_raises :
  parse (database None []) "" = []
  /\ fst (_get_csv_headers_from_sql (database None [])
            (start (task "" None false (ODict ∅))))
     = Raise IndexError.
Proof. split; reflexivity. Qed.

(** C8, amended: whenever the parser finds at least one statement in the
    text, header derivation returns a sequence of headers and raises
    nothing, one header per field of the identifier lists of the first
    statement; the sequence is empty when that statement has no identifier
    list.  The state is left as it was. *)
Theorem headers_from_sql_total_on_statement (E : env) (st : state)
    (stmt : Sqlparse.statement) (rest : list Sqlparse.statement) :
  parse E (sql (self st)) = stmt :: rest ->
  exists hs,
    _get_csv_headers_from_sql E st = (Ok hs, st)
    /\ length hs = length (flat_map fields_of_token stmt)
    /\ (forallb (fun t => negb (Sqlparse.is_identifier_list t)) stmt = true ->
        hs = []).
Proof.
  intros Hp.
  destruct (headers_from_sql_statement E st stmt rest Hp) as (hs & Hr & Hm & Hl).
  exists hs. repeat split; auto.
  intros Hn. rewrite (no_identifier_list_no_field stmt Hn) in Hl.
  destruct hs; [reflexivity|discriminate].
Qed.

Lemma headers_from_sql_total_on_statement_witness :
  let st := start (task "select * from t" None false (ODict ∅)) in
  exists hs,
    _get_csv_headers_from_sql (database None []) st = (Ok hs, st)
    /\ length hs = length (flat_map fields_of_token select_star)
    /\ (forallb (fun t => negb (Sqlparse.is_identifier_list t)) select_star
          = true ->
        hs = []).
Proof.
  exact (headers_from_sql_total_on_statement (database None [])
           (start (task "select * from t" None false (ODict ∅)))
           select_star [] eq_refl).
Defined.

(** ** The run *)

(** C4: in an incremental run whose watermark query yields a row and whose
    [parameters] is a dict, the watermark is stored under
    [last_updated_value], every other binding is as supplied, the main query
    is sent after the watermark query with exactly that dict, no further
    query is sent, and a failure of that call is the failure of the run. *)
Theorem execute_binds_last_updated_value (E : env) (st : state)
    (d : gmap string pyval) (v : pyval) (rest : list pyval) :
  increment (self st) = true ->
  parameters (self st) = ODict d ->
  get_first E (destination_conn_id (self st)) (last_updated_sql (self st))
    = Ok (Some (v :: rest)) ->
  let w := if truthy v then v else default_last_updated_value (self st) in
  let bound := <["last_updated_value" := w]> d in
  queries (outside (snd (execute E st)))
    = queries (outside st)
      ++ [watermark_query (self st); main_query (self st) (ODict bound)]
  /\ parameters (self (snd (execute E st))) = ODict bound
  /\ bound !! "last_updated_value" = Some w
  /\ (forall k, k <> "last_updated_value" -> bound !! k = d !! k)
  /\ (forall e,
        get_records E (postgres_conn_id (self st)) (sql (self st)) (ODict bound)
          = Raise e ->
        fst (execute E st) = Raise e).
Proof.
  intros Hi Hd Hg. cbv zeta.
  set (w := if truthy v then v else default_last_updated_value (self st)).
  set (bound := <["last_updated_value" := w]> d).
  assert (exists msg, bind_last_updated_value E st
            = (Ok tt, set_self (set_parameters (ODict bound))
                        (after_watermark msg st))) as [msg Hb].
  { rewrite bind_last_updated_value_eq, Hi.
    destruct (extract_row E st v rest Hg) as [msg ->]. exists msg.
    simpl. rewrite Hd. reflexivity. }
  rewrite execute_eq, Hb.
  set (st1 := set_self _ _).
  pose proof (fetch_results_frame E st1) as (Hfs & Hfq).
  assert (fetch_results E st1 = fetch_results E st1) as Hf by reflexivity.
  rewrite fetch_results_eq in Hf at 2. cbv zeta in Hf.
  change (get_records E (postgres_conn_id (self st1)) (sql (self st1))
            (parameters (self st1)))
    with (get_records E (postgres_conn_id (self st)) (sql (self st))
            (ODict bound)) in Hf.
  destruct (fetch_results E st1) as [[rs|e] st2]; simpl in Hfs, Hfq.
  - pose proof (finish_frame E rs st2) as (_ & Hp & _ & Hq). cbv zeta in *.
    rewrite Hp, Hq, Hfq, Hfs. subst st1. simpl.
    rewrite <- app_assoc. simpl. repeat split.
    + apply lookup_insert_eq.
    + intros k Hk. apply lookup_insert_ne. congruence.
    + intros e He. rewrite He in Hf. discriminate.
  - simpl. rewrite Hfq, Hfs. subst st1. simpl.
    rewrite <- app_assoc. simpl. repeat split.
    + apply lookup_insert_eq.
    + intros k Hk. apply lookup_insert_ne. congruence.
    + intros e' He. rewrite He in Hf. congruence.
Qed.

Lemma execute_binds_last_updated_value_witness :
  let E := database (Some [PNone]) [[PInt 1; PStr "Ann"]] in
  let st := start (task "SELECT id, name AS customer FROM t" None true
                     (ODict {["limit" := PInt 10]})) in
  let w := PStr "1970-01-01 00:00:00+00:00" in
  let bound := <["last_updated_value" := w]> {["limit" := PInt 10]} in
  queries (outside (snd (execute E st)))
    = [] ++ [watermark_query (self st); main_query (self st) (ODict bound)]
  /\ parameters (self (snd (execute E st))) = ODict bound
  /\ bound !! "last_updated_value" = Some w
  /\ (forall k, k <> "last_updated_value" ->
      bound !! k = ({["limit" := PInt 10]} : gmap string pyval) !! k)
  /\ (forall e,
        get_records E (postgres_conn_id (self st)) (sql (self st)) (ODict bound)
          = Raise e ->
        fst (execute E st) = Raise e).
Proof.
  exact (execute_binds_last_updated_value
           (database (Some [PNone]) [[PInt 1; PStr "Ann"]])
           (start (task "SELECT id, name AS customer FROM t" None true
                     (ODict {["limit" := PInt 10]})))
           {["limit" := PInt 10]} PNone [] eq_refl eq_refl eq_refl).
Defined.

(** C6, as stated, fails for headers supplied as the empty sequence: the
    empty list is not truthy, so the headers are derived from the SQL text
    and those are written. *)
Lemma execute_derives_for_empty_headers :
  let E := database None [] in
  let st := start (task "SELECT id, name AS customer FROM t" (Some []) false
                     (ODict ∅)) in
  headers (self st) = Some []
  /\ fst (execute E st) = Ok tt
  /\ headers (self (snd (execute E st))) = Some ["id"; "customer"]
  /\ files (outside (snd (execute E st))) !! "/tmp/out.csv"
     = Some (Csv.writeheader ["id"; "customer"]).
Proof. cbv zeta. repeat split; vm_compute; reflexivity. Qed.

(** C6, amended: when the headers supplied are not empty, the run is the
    one without the derivation step, with the writer called on those
    headers as they are; it does not depend on what the parser makes of
    the SQL text, and [self.headers] is left as supplied. *)
Theorem execute_supplied_headers_verbatim (E : env) (st : state)
    (h : string) (t : list string) :
  headers (self st) = Some (h :: t) ->
  execute E st
    = (bind_last_updated_value E;;
       results ← fetch_results E;
       _create_csv E results (Some (h :: t))) st
  /\ (forall f, execute (with_parse f E) st = execute E st)
  /\ headers (self (snd (execute E st))) = Some (h :: t).
Proof.
  intros Hh.
  assert (forall E', execute E' st
            = (bind_last_updated_value E';;
               results ← fetch_results E';
               _create_csv E' results (Some (h :: t))) st) as Heq.
  { intros E'. rewrite execute_eq. monad_unfold. cbv beta iota.
    pose proof (bind_last_updated_value_frame E' st) as (_ & Hh1 & _).
    destruct (bind_last_updated_value E' st) as [[[]|e] st1]; [|reflexivity].
    pose proof (fetch_results_frame E' st1) as (Hf & _).
    destruct (fetch_results E' st1) as [[rs|e] st2]; [|reflexivity].
    simpl in Hh1, Hf.
    assert (headers (self st2) = Some (h :: t)) as H2 by congruence.
    rewrite resolve_headers_eq, H2. cbn [truthy_headers]. rewrite H2.
    reflexivity. }
  split; [apply Heq|]. split.
  - intros f. rewrite (Heq (with_parse f E)), (Heq E). reflexivity.
  - destruct (execute_frame E st) as (_ & _ & Hk).
    rewrite Hk; [exact Hh|]. rewrite Hh. reflexivity.
Qed.

Lemma execute_supplied_headers_verbatim_witness :
  let E := database None [[PInt 1; PStr "Ann"]] in
  let st := start (task "SELECT id, name AS customer FROM t"
                     (Some ["number"; "who"]) false (ODict ∅)) in
  execute E st
    = (bind_last_updated_value E;;
       results ← fetch_results E;
       _create_csv E results (Some ["number"; "who"])) st
  /\ (forall f, execute (with_parse f E) st = execute E st)
  /\ headers (self (snd (execute E st))) = Some ["number"; "who"].
Proof.
  exact (execute_supplied_headers_verbatim
           (database None [[PInt 1; PStr "Ann"]])
           (start (task "SELECT id, name AS customer FROM t"
                     (Some ["number"; "who"]) false (ODict ∅)))
           "number" ["who"] eq_refl).
Defined.

(** C7: when the watermark step went through and the main query returned
    [rs], when headers are supplied or the parser finds a statement, and
    when the file can be opened, the run ends without an exception and the
    file holds the header row followed by the rows of [rs] in their order
    and nothing else; for an empty [rs] that is the header row alone. *)
Theorem execute_writes_header_then_rows (E : env) (st st1 st2 : state)
    (rs : list (list pyval)) :
  bind_last_updated_value E st = (Ok tt, st1) ->
  fetch_results E st1 = (Ok rs, st2) ->
  truthy_headers (headers (self st)) = true \/ parse E (sql (self st)) <> [] ->
  writable E (csv_file_path (self st)) = true ->
  exists hs,
    fst (execute E st) = Ok tt
    /\ headers (self (snd (execute E st))) = Some hs
    /\ files (outside (snd (execute E st))) !! csv_file_path (self st)
       = Some (Csv.writeheader hs +:+ rows_text rs)
    /\ (rs = [] ->
        files (outside (snd (execute E st))) !! csv_file_path (self st)
        = Some (Csv.writeheader hs)).
Proof.
  intros Hb Hf Hh Hw.
  pose proof (bind_last_updated_value_frame E st) as (Hs1 & Hh1 & _).
  pose proof (fetch_results_frame E st1) as (Hs2 & _).
  rewrite Hb in Hs1, Hh1. rewrite Hf in Hs2. simpl in Hs1, Hh1, Hs2.
  assert (sql (self st2) = sql (self st)
          /\ csv_file_path (self st2) = csv_file_path (self st)
          /\ headers (self st2) = headers (self st)) as (Hsql & Hpath & Hhd).
  { rewrite Hs2. unfold same_settings in Hs1. intuition. }
  assert (exists hs st3,
            resolve_headers E st2 = (Ok tt, st3)
            /\ headers (self st3) = Some hs
            /\ csv_file_path (self st3) = csv_file_path (self st)) as
    (hs & st3 & Hr & Hhs & Hp3).
  { rewrite resolve_headers_eq.
    destruct (truthy_headers (headers (self st2))) eqn:Ht.
    - destruct (headers (self st2)) as [[|h t]|] eqn:H2; try discriminate.
      exists (h :: t), st2. auto.
    - destruct Hh as [Hh|Hh]; [congruence|].
      destruct (parse E (sql (self st))) as [|stmt more] eqn:Hp; [congruence|].
      rewrite <- Hsql in Hp.
      destruct (headers_from_sql_statement E st2 stmt more Hp)
        as (hs & -> & _ & _).
      exists hs, (set_self (set_headers (Some hs)) st2). auto. }
  exists hs. rewrite execute_eq, Hb, Hf, Hr, Hhs.
  rewrite create_csv_written by (rewrite Hp3; exact Hw).
  rewrite Hp3. simpl. rewrite lookup_insert_eq.
  split; [reflexivity|]. split; [exact Hhs|]. split; [reflexivity|].
  intros ->. simpl. rewrite append_empty_r. reflexivity.
Qed.

Lemma execute_writes_header_then_rows_witness :
  let E := database (Some [PNone]) [] in
  let st := start (task "SELECT id, name AS customer FROM t" None true
                     (ODict ∅)) in
  let rs : list (list pyval) := [] in
  exists hs,
    fst (execute E st) = Ok tt
    /\ headers (self (snd (execute E st))) = Some hs
    /\ files (outside (snd (execute E st))) !! csv_file_path (self st)
       = Some (Csv.writeheader hs +:+ rows_text rs)
    /\ (rs = [] ->
        files (outside (snd (execute E st))) !! csv_file_path (self st)
        = Some (Csv.writeheader hs)).
Proof.
  exact (execute_writes_header_then_rows
           (database (Some [PNone]) [])
           (start (task "SELECT id, name AS customer FROM t" None true
                     (ODict ∅)))
           _ _ [] eq_refl eq_refl
           (or_intror (fun H => eq_ind [select_customers]
              (fun l => match l with [] => False | _ :: _ => True end) I [] H))
           eq_refl).
Defined.

(** C10, as stated, fails: an incremental run stores the watermark in
    [self.parameters], and a run without supplied headers assigns the
    derived ones to [self.headers]. *)
Lemma execute_changes_parameters_and_headers :
  let E := database (Some [PNone]) [] in
  let st := start (task "SELECT id, name AS customer FROM t" None true
                     (ODict ∅)) in
  fst (execute E st) = Ok tt
  /\ parameters (self st) = ODict ∅
  /\ parameters (self (snd (execute E st)))
     = ODict {["last_updated_value" := PStr "1970-01-01 00:00:00+00:00"]}
  /\ parameters (self (snd (execute E st))) <> parameters (self st)
  /\ headers (self st) = None
  /\ headers (self (snd (execute E st))) = Some ["id"; "customer"]
  /\ headers (self (snd (execute E st))) <> headers (self st).
Proof.
  cbv zeta. repeat split; try (vm_compute; reflexivity).
  - vm_compute. discriminate.
  - vm_compute. discriminate.
Qed.

(** C10, amended: a run, whether it ends well or raises, leaves the SQL
    text, the two connection ids, the file path, the incremental flag, the
    table and column names, the watermark query and the default watermark
    as they were at construction; it leaves [parameters] as it was when the
    run is not incremental, and [headers] as it was when headers were
    supplied and not empty. *)
Theorem execute_preserves_settings (E : env) (st : state) :
  let s := self st in
  let s' := self (snd (execute E st)) in
  sql s' = sql s
  /\ postgres_conn_id s' = postgres_conn_id s
  /\ destination_conn_id s' = destination_conn_id s
  /\ csv_file_path s' = csv_file_path s
  /\ increment s' = increment s
  /\ destination_table s' = destination_table s
  /\ last_modified_fname s' = last_modified_fname s
  /\ last_updated_sql s' = last_updated_sql s
  /\ default_last_updated_value s' = default_last_updated_value s
  /\ (increment s = false -> parameters s' = parameters s)
  /\ (truthy_headers (headers s) = true -> headers s' = headers s).
Proof.
  cbv zeta. destruct (execute_frame E st) as (Hs & Hp & Hh).
  unfold same_settings in Hs. intuition.
Qed.

(** The end-to-end scenario of the specification, with two rows. *)
Example incremental_run_with_rows :
  let E := database (Some [PNone]) [[PInt 1; PStr "Ann"]; [PInt 2; PNone]] in
  let st := start (task "SELECT id, name AS customer FROM t" None true
                     (ODict ∅)) in
  fst (execute E st) = Ok tt
  /\ files (outside (snd (execute E st))) !! "/tmp/out.csv"
     = Some (Csv.writerow [PStr "id"; PStr "customer"]
             +:+ Csv.writerow [PInt 1; PStr "Ann"]
             +:+ Csv.writerow [PInt 2; PNone])
  /\ Csv.writerow [PInt 2; PNone]
     = "2," +:+ Csv.lineterminator.
Proof. cbv zeta. repeat split; vm_compute; reflexivity. Qed.

(** A falsy [parameters] that is not a dict passes [__init__]; an
    incremental run then finds no [update] on it. *)
Example incremental_run_without_dict :
  let E := database (Some [PNone]) [] in
  exists s,
    __init__ (arguments (OScalar PNone) true "dest" "updated_at") = Ok s
    /\ fst (execute E (start s)) = Raise AttributeError.
Proof. cbv zeta. eexists. split; reflexivity. Qed.

(** * Further properties of the operator *)

(** ** Characters through the string methods *)
Module ShapeFacts.
Import PyStr Shape PyStrFacts.

Lemma all_chars_app (p : ascii -> bool) (a b : string) :
  all_chars p (a +:+ b) = all_chars p a && all_chars p b.
Proof.
  induction a as [|c a IH]; [reflexivity|].
  rewrite append_cons. simpl. rewrite IH, andb_assoc. reflexivity.
Qed.

Lemma all_chars_and (p q : ascii -> bool) (s : string) :
  all_chars (fun c => p c && q c) s = all_chars p s && all_chars q s.
Proof.
  induction s as [|c s IH]; [reflexivity|]. simpl. rewrite IH.
  destruct (p c), (q c), (all_chars p s), (all_chars q s); reflexivity.
Qed.

(** A piece of a string has the shape of the string. *)
Lemma all_chars_piece (p : ascii -> bool) (s a x b : string) :
  s = a +:+ x +:+ b -> all_chars p s = true -> all_chars p x = true.
Proof.
  intros ->. rewrite !all_chars_app. intros H.
  apply andb_true_iff in H as [_ H]. apply andb_true_iff in H as [H _].
  exact H.
Qed.

Lemma prefix_empty (s : string) : String.prefix "" s = true.
Proof. destruct s; reflexivity. Qed.

Lemma prefix_cons (c d : ascii) (p s : string) :
  String.prefix (String c p) (String d s)
  = if ascii_dec c d then String.prefix p s else false.
Proof. reflexivity. Qed.

Lemma prefix_first (c d : ascii) (rest s : string) :
  is_not c d = true -> String.prefix (String c rest) (String d s) = false.
Proof.
  unfold is_not. intros H. rewrite prefix_cons.
  destruct (ascii_dec c d) as [->|]; [|reflexivity].
  rewrite Ascii.eqb_refl in H. discriminate.
Qed.

(** [c not in s], said with [all_chars]. *)
Lemma contains_char (c : ascii) (s : string) :
  contains (String c "") s = negb (all_chars (is_not c) s).
Proof.
  induction s as [|d s IH]; [reflexivity|].
  rewrite contains_eq, IH, prefix_cons. cbn [all_chars]. unfold is_not.
  destruct (ascii_dec c d) as [->|Hne].
  - rewrite Ascii.eqb_refl, prefix_empty. reflexivity.
  - apply Ascii.eqb_neq in Hne. rewrite Hne. reflexivity.
Qed.

(** A separator cannot occur where its first character does not. *)
Lemma contains_first_char (c : ascii) (rest s : string) :
  all_chars (is_not c) s = true -> contains (String c rest) s = false.
Proof.
  induction s as [|d s IH]; [reflexivity|]. simpl all_chars.
  intros H. apply andb_true_iff in H as [Hd Hs].
  rewrite contains_eq, (prefix_first _ _ _ _ Hd), (IH Hs). reflexivity.
Qed.

Lemma prefix_self_append (p s : string) : String.prefix p (p +:+ s) = true.
Proof.
  induction p as [|c p IH]; [apply prefix_empty|].
  rewrite append_cons. simpl. destruct (ascii_dec c c); [exact IH|congruence].
Qed.

Lemma drop_self_append (p s : string) : drop (String.length p) (p +:+ s) = s.
Proof. induction p as [|c p IH]; [reflexivity|exact IH]. Qed.

(** The leftmost separator is the one written out, when its first
    character does not occur before it. *)
Lemma partition_first_char (c : ascii) (rest e a : string) :
  all_chars (is_not c) e = true ->
  partition (String c rest) (e +:+ String c rest +:+ a) = Some (e, a).
Proof.
  induction e as [|d e IH]; intros H.
  - change ("" +:+ String c rest +:+ a) with (String c rest +:+ a).
    rewrite partition_eq, prefix_self_append, drop_self_append. reflexivity.
  - simpl in H. apply andb_true_iff in H as [Hd He].
    rewrite append_cons, partition_eq, (prefix_first _ _ _ _ Hd), (IH He).
    reflexivity.
Qed.

Lemma split_no_separator (c : ascii) (rest s : string) :
  all_chars (is_not c) s = true -> split (String c rest) s = [s].
Proof.
  intros H. rewrite split_unfold by discriminate.
  rewrite (not_contains_partition _ _ (contains_first_char c rest s H)).
  reflexivity.
Qed.

(** [(e + sep + a).split(sep)] is [[e, a]] when the first character of
    [sep] occurs in neither. *)
Lemma split_two (c : ascii) (rest e a : string) :
  all_chars (is_not c) e = true -> all_chars (is_not c) a = true ->
  split (String c rest) (e +:+ String c rest +:+ a) = [e; a].
Proof.
  intros He Ha. rewrite split_unfold by discriminate.
  rewrite (partition_first_char c rest e a He), (split_no_separator c rest a Ha).
  reflexivity.
Qed.

Lemma partition_contains (sep s before after : string) :
  partition sep s = Some (before, after) -> contains sep s = true.
Proof.
  intros H. destruct (contains sep s) eqn:Hc; [reflexivity|].
  rewrite (not_contains_partition _ _ Hc) in H. discriminate.
Qed.

(** *** [lower], [strip] and [replace] *)








Lemma remove_char_clean (q : ascii) (s : string) :
  all_chars (is_not q) (remove_char q s) = true.
Proof.
  induction s as [|c s IH]; [reflexivity|]. simpl.
  destruct (Ascii.eqb q c) eqn:Hq; [exact IH|]. simpl.
  unfold is_not at 1. rewrite Hq, IH. reflexivity.
Qed.

(** Where the first character of a separator does not occur, the
    separator does not begin. *)
Lemma contains_after_clean (c : ascii) (rest e t : string) :
  all_chars (is_not c) e = true ->
  contains (String c rest) (e +:+ t) = contains (String c rest) t.
Proof.
  induction e as [|d e IH]; [reflexivity|]. simpl all_chars. intros H.
  apply andb_true_iff in H as [Hd He].
  rewrite append_cons, contains_eq, (prefix_first _ _ _ _ Hd), (IH He).
  reflexivity.
Qed.

Lemma prefix_shape (p : ascii -> bool) (pre s : string) :
  String.prefix pre s = true -> all_chars p s = true -> all_chars p pre = true.
Proof.
  intros Hp Hs. rewrite (prefix_drop _ _ Hp), all_chars_app in Hs.
  apply andb_true_iff in Hs as [H _]. exact H.
Qed.

End ShapeFacts.

(** ** The field parser on well-shaped fields *)
Module FieldFacts.
Import Py Operator Shape PyStrFacts OperatorFacts ShapeFacts.

Lemma piece_whole (h : string) : h = "" +:+ h +:+ "".
Proof. rewrite append_empty_r. reflexivity. Qed.

Lemma keep_alias_piece (h x : string) :
  keep_alias h = Ok x -> exists a b, h = a +:+ x +:+ b.
Proof.
  intros H. destruct (keep_alias_spec h x H) as [_ [->|[before ->]]].
  - exists "", "". apply piece_whole.
  - exists (before +:+ " as "), "".
    rewrite append_empty_r, append_assoc. reflexivity.
Qed.

(** What [split(sep)[1]] or the string itself gives: a piece free of
    [sep]. *)
Lemma second_piece (sep h x : string) :
  sep <> EmptyString ->
  (if PyStr.contains sep h then
     exists before after,
       PyStr.partition sep h = Some (before, after)
       /\ x = match PyStr.partition sep after with
              | Some (middle, _) => middle
              | None => after
              end
   else x = h) ->
  PyStr.contains sep x = false /\ exists a b, h = a +:+ x +:+ b.
Proof.
  intros Hsep. destruct (PyStr.contains sep h) eqn:Hc.
  - intros (before & after & Hp & ->).
    pose proof (partition_spec _ _ _ _ Hp) as Hh.
    destruct (PyStr.partition sep after) as [[m r]|] eqn:Hq.
    + split; [exact (partition_before_clean _ _ _ _ Hsep Hq)|].
      exists (before +:+ sep), (sep +:+ r).
      rewrite Hh, (partition_spec _ _ _ _ Hq), !append_assoc. reflexivity.
    + split; [exact (partition_none_clean _ _ Hq)|].
      exists (before +:+ sep), "".
      rewrite Hh, append_empty_r, append_assoc. reflexivity.
  - intros ->. split; [exact Hc|]. exists "", "". apply piece_whole.
Qed.

Lemma drop_qualifier_shape (h x : string) :
  drop_qualifier h = Ok x ->
  all_chars (is_not dot) x = true /\ exists a b, h = a +:+ x +:+ b.
Proof.
  intros H. apply drop_qualifier_spec in H.
  destruct (second_piece "." h x ltac:(discriminate) H) as [Hc Hp].
  split; [|exact Hp]. change "." with (String dot "") in Hc.
  rewrite contains_char in Hc. destruct (all_chars _ x); [reflexivity|discriminate].
Qed.

Lemma second_word_shape (h x : string) :
  second_word h = Ok x ->
  all_chars (is_not space) x = true /\ exists a b, h = a +:+ x +:+ b.
Proof.
  intros H. apply second_word_spec in H.
  destruct (second_piece " " h x ltac:(discriminate) H) as [Hc Hp].
  split; [|exact Hp]. change " " with (String space "") in Hc.
  rewrite contains_char in Hc. destruct (all_chars _ x); [reflexivity|discriminate].
Qed.

(** The three steps in a row. *)
Lemma parse_sql_field_steps (sql_field h : string) :
  _parse_sql_field_to_csv_header sql_field = Ok h ->
  exists h1 h2,
    keep_alias (normalize sql_field) = Ok h1
    /\ drop_qualifier h1 = Ok h2
    /\ second_word h2 = Ok h.
Proof.
  unfold _parse_sql_field_to_csv_header.
  destruct (keep_alias (normalize sql_field)) as [h1|]; [|discriminate].
  simpl. destruct (drop_qualifier h1) as [h2|] eqn:H2; [|discriminate].
  simpl. intros H3. exists h1, h2. auto.
Qed.

(** A shape that [normalize] gives its result is the shape of the header. *)
Lemma header_keeps_shape (p : ascii -> bool) (sql_field h : string) :
  all_chars p (normalize sql_field) = true ->
  _parse_sql_field_to_csv_header sql_field = Ok h ->
  all_chars p h = true.
Proof.
  intros Hn H. destruct (parse_sql_field_steps _ _ H) as (h1 & h2 & H1 & H2 & H3).
  destruct (keep_alias_piece _ _ H1) as (a1 & b1 & E1).
  destruct (drop_qualifier_shape _ _ H2) as (_ & a2 & b2 & E2).
  destruct (second_word_shape _ _ H3) as (_ & a3 & b3 & E3).
  eapply all_chars_piece; [exact E3|].
  eapply all_chars_piece; [exact E2|].
  eapply all_chars_piece; [exact E1|exact Hn].
Qed.

Lemma name_char_split (s : string) :
  all_chars name_char s = true ->
  all_chars (is_not dot) s = true /\ all_chars (is_not space) s = true.
Proof.
  unfold name_char. rewrite all_chars_and. apply andb_true_iff.
Qed.

(** A string without a space holds no [ as ]. *)
Lemma no_space_no_as (s : string) :
  all_chars (is_not space) s = true -> PyStr.contains " as " s = false.
Proof. apply (contains_first_char space "as "). Qed.

Lemma no_char_contains (c : ascii) (s : string) :
  all_chars (is_not c) s = true -> PyStr.contains (String c "") s = false.
Proof. intros H. rewrite contains_char, H. reflexivity. Qed.

(** A bare name goes through the last two steps as it is. *)
Lemma bare_name_through (a : string) :
  all_chars name_char a = true ->
  and_then (drop_qualifier a) second_word = Ok a.
Proof.
  intros H. destruct (name_char_split a H) as [Hd Hs].
  unfold drop_qualifier. change "." with (String dot "").
  rewrite (no_char_contains dot a Hd). simpl.
  unfold second_word. change " " with (String space "").
  rewrite (no_char_contains space a Hs). reflexivity.
Qed.

End FieldFacts.

Import Shape ShapeFacts FieldFacts.

(** ** [_parse_sql_field_to_csv_header] *)

(** X1: the field parser returns a header for every field: where it takes
    the piece at index 1 of a split, the separator is in the string, so the
    subscript is in range. *)
Theorem field_parser_never_raises (sql_field : string) :
  exists h, _parse_sql_field_to_csv_header sql_field = Ok h.
Proof. apply parse_sql_field_total. Qed.

(** X2: a header the field parser returns holds no dot, no space and no
    double quote. *)
Theorem field_header_is_plain (sql_field h : string) :
  _parse_sql_field_to_csv_header sql_field = Ok h ->
  all_chars plain h = true.
Proof.
  intros H. destruct (parse_sql_field_steps _ _ H) as (h1 & h2 & H1 & H2 & H3).
  destruct (drop_qualifier_shape _ _ H2) as (Hdot & _).
  destruct (second_word_shape _ _ H3) as (Hspace & a & b & E).
  unfold plain. rewrite !all_chars_and, Hspace.
  rewrite (all_chars_piece _ _ _ _ _ E Hdot).
  rewrite (header_keeps_shape (is_not Csv.quotechar) sql_field h); [reflexivity| |exact H].
  apply remove_char_clean.
Qed.

Lemma field_header_is_plain_witness :
  all_chars plain "total" = true.
Proof.
  exact (field_header_is_plain "MAX(t.x) AS  Total " "total" eq_refl).
Defined.


(** X4: a column qualified by its table, [q.c] once normalized, with
    neither dot nor space in [q] and [c], gives the header [c]. *)
Theorem qualified_column_header (sql_field q c : string) :
  normalize sql_field = q +:+ "." +:+ c ->
  all_chars name_char q = true ->
  all_chars name_char c = true ->
  _parse_sql_field_to_csv_header sql_field = Ok c.
Proof.
  intros Hn Hq Hc.
  destruct (name_char_split q Hq) as [Hqd Hqs].
  destruct (name_char_split c Hc) as [Hcd Hcs].
  unfold _parse_sql_field_to_csv_header. rewrite Hn.
  unfold keep_alias. rewrite no_space_no_as.
  2:{ rewrite !all_chars_app, Hqs, Hcs. reflexivity. }
  simpl and_then. unfold drop_qualifier.
  change "." with (String dot "").
  rewrite (partition_contains _ _ _ _ (partition_first_char dot "" q c Hqd)).
  rewrite (split_two dot "" q c Hqd Hcd). simpl.
  unfold second_word. change " " with (String space "").
  rewrite (no_char_contains space c Hcs). reflexivity.
Qed.

Lemma qualified_column_header_witness :
  _parse_sql_field_to_csv_header "Orders.ID" = Ok "id".
Proof.
  exact (qualified_column_header "Orders.ID" "orders" "id"
           eq_refl eq_refl eq_refl).
Defined.

(** X5: an alias wins: for a field that reads [e as a] once normalized,
    with no space in [e] and neither dot nor space in [a], the header is
    [a], whatever qualifier or call [e] holds. *)
Theorem aliased_field_header (sql_field e a : string) :
  normalize sql_field = e +:+ " as " +:+ a ->
  all_chars (is_not space) e = true ->
  all_chars name_char a = true ->
  _parse_sql_field_to_csv_header sql_field = Ok a.
Proof.
  intros Hn He Ha. destruct (name_char_split a Ha) as [Had Has].
  unfold _parse_sql_field_to_csv_header. rewrite Hn.
  unfold keep_alias. change " as " with (String space "as ").
  rewrite (partition_contains _ _ _ _ (partition_first_char space "as " e a He)).
  rewrite (split_two space "as " e a He Has). simpl and_then.
  apply bare_name_through, Ha.
Qed.

Lemma aliased_field_header_witness :
  _parse_sql_field_to_csv_header "COUNT(t.id) AS Total" = Ok "total".
Proof.
  exact (aliased_field_header "COUNT(t.id) AS Total" "count(t.id)" "total"
           eq_refl eq_refl eq_refl).
Defined.

(** X6: a field that reads [e a] once normalized, two bare names with one
    space between them, gives the second one as the header. *)
Theorem implicit_alias_header (sql_field e a : string) :
  normalize sql_field = e +:+ " " +:+ a ->
  all_chars name_char e = true ->
  all_chars name_char a = true ->
  _parse_sql_field_to_csv_header sql_field = Ok a.
Proof.
  intros Hn He Ha.
  destruct (name_char_split e He) as [Hed Hes].
  destruct (name_char_split a Ha) as [Had Has].
  unfold _parse_sql_field_to_csv_header. rewrite Hn.
  assert (PyStr.contains " as " (e +:+ " " +:+ a) = false) as Has_absent.
  { change " as " with (String space "as ").
    rewrite (contains_after_clean space "as " e _ Hes).
    change (" " +:+ a) with (String space a).
    rewrite contains_eq, prefix_cons, (contains_first_char space "as " a Has).
    destruct (ascii_dec space space); [|congruence].
    destruct (String.prefix "as " a) eqn:Hp; [|reflexivity].
    pose proof (prefix_shape (is_not space) _ _ Hp Has). discriminate. }
  unfold keep_alias. rewrite Has_absent. simpl and_then.
  unfold drop_qualifier. change "." with (String dot "").
  rewrite no_char_contains.
  2:{ rewrite !all_chars_app, Hed, Had. reflexivity. }
  simpl and_then. unfold second_word. change " " with (String space "").
  rewrite (partition_contains _ _ _ _ (partition_first_char space "" e a Hes)).
  rewrite (split_two space "" e a Hes Has). reflexivity.
Qed.

Lemma implicit_alias_header_witness :
  _parse_sql_field_to_csv_header " amount Total" = Ok "total".
Proof.
  exact (implicit_alias_header " amount Total" "amount" "total"
           eq_refl eq_refl eq_refl).
Defined.

(** ** The run and the world *)
Module RunFacts.
Import Py Operator PyStrFacts OperatorFacts.

(** What the resolver returns, read off [self] and the answer of the
    hook. *)
Lemma extract_fst (E : env) (st : state) :
  fst (_extract_last_updated_value E st) =
    match get_first E (destination_conn_id (self st))
            (last_updated_sql (self st)) with
    | Ok (Some (v :: _)) =>
        Ok (if truthy v then v else default_last_updated_value (self st))
    | Ok (Some []) => Raise IndexError
    | Ok None => Raise TypeError
    | Raise e => Raise e
    end.
Proof.
  unfold _extract_last_updated_value, hook_get_first, log_info.
  monad_unfold. simpl.
  destruct (get_first E _ _) as [[[|v rest]|]|e]; simpl; try reflexivity.
  destruct (truthy v); reflexivity.
Qed.

Lemma extract_files (E : env) (st : state) :
  files (outside (snd (_extract_last_updated_value E st)))
  = files (outside st).
Proof.
  unfold _extract_last_updated_value, hook_get_first, log_info.
  monad_unfold. simpl.
  destruct (get_first E _ _) as [[[|v rest]|]|e]; simpl; try reflexivity.
  destruct (truthy v); reflexivity.
Qed.

Lemma bind_files (E : env) (st : state) :
  files (outside (snd (bind_last_updated_value E st))) = files (outside st).
Proof.
  rewrite bind_last_updated_value_eq.
  destruct (increment (self st)); [|reflexivity].
  pose proof (extract_files E st) as Hf.
  destruct (_extract_last_updated_value E st) as [[v|e] st1]; simpl in *;
    [|exact Hf].
  destruct (dict_update _ _ v); simpl; exact Hf.
Qed.

Lemma fetch_files (E : env) (st : state) :
  files (outside (snd (fetch_results E st))) = files (outside st).
Proof.
  rewrite fetch_results_eq. cbv zeta.
  destruct (get_records E _ _ _) as [[|row rows]|e]; reflexivity.
Qed.

Lemma fetch_fst (E : env) (st : state) :
  fst (fetch_results E st)
  = get_records E (postgres_conn_id (self st)) (sql (self st))
      (parameters (self st)).
Proof.
  rewrite fetch_results_eq. cbv zeta.
  destruct (get_records E _ _ _) as [[|row rows]|e]; reflexivity.
Qed.

(** [_create_csv] touches the file at [csv_file_path] and no other. *)
Lemma create_csv_other_files (E : env) (st : state) rs h (path : string) :
  path <> csv_file_path (self st) ->
  files (outside (snd (_create_csv E rs h st))) !! path
  = files (outside st) !! path.
Proof.
  intros Hne. destruct (writable E (csv_file_path (self st))) eqn:Hw.
  - destruct h as [hs|].
    + rewrite (create_csv_written E st rs hs Hw). simpl.
      apply lookup_insert_ne. congruence.
    + unfold _create_csv. monad_unfold. cbv beta iota. rewrite Hw. simpl.
      apply lookup_insert_ne. congruence.
  - rewrite (create_csv_refused E st rs h Hw). reflexivity.
Qed.

(** A run that ends well went through its four steps. *)
Lemma execute_ok_steps (E : env) (st st' : state) :
  execute E st = (Ok tt, st') ->
  exists st1 rs st2 st3,
    bind_last_updated_value E st = (Ok tt, st1)
    /\ fetch_results E st1 = (Ok rs, st2)
    /\ resolve_headers E st2 = (Ok tt, st3)
    /\ _create_csv E rs (headers (self st3)) st3 = (Ok tt, st').
Proof.
  rewrite execute_eq.
  destruct (bind_last_updated_value E st) as [[[]|e] st1] eqn:H1;
    [|discriminate].
  destruct (fetch_results E st1) as [[rs|e] st2] eqn:H2; [|discriminate].
  destruct (resolve_headers E st2) as [[[]|e] st3] eqn:H3; [|discriminate].
  intros H. exists st1, rs, st2, st3. auto.
Qed.

Lemma set_parameters_same (s : operator) :
  set_parameters (parameters s) s = s.
Proof. destruct s. reflexivity. Qed.

Lemma set_headers_same (s : operator) : set_headers (headers s) s = s.
Proof. destruct s. reflexivity. Qed.

Lemma set_self_same (f : operator -> operator) (st : state) :
  f (self st) = self st -> set_self f st = st.
Proof. destruct st as [s w]. unfold set_self. simpl. intros ->. reflexivity. Qed.

End RunFacts.

Import RunFacts.

(** ** [_extract_last_updated_value] *)

(** X7: whatever comes of it, the resolver sends one query, the watermark
    query on the destination connection, changes nothing of [self] and
    writes no file. *)
Theorem resolver_sends_one_query (E : env) (st : state) :
  let st' := snd (_extract_last_updated_value E st) in
  queries (outside st') = queries (outside st) ++ [watermark_query (self st)]
  /\ self st' = self st
  /\ files (outside st') = files (outside st).
Proof.
  cbv zeta. split; [apply extract_queries|].
  split; [apply extract_self|apply extract_files].
Qed.

(** ** [_get_csv_headers_from_sql] *)

(** X8: when the parser yields two texts with the same first statement,
    the headers derived are the same: what follows the first statement
    does not count. *)
Theorem headers_from_first_statement (E E' : env) (st : state)
    (stmt : Sqlparse.statement) (rest rest' : list Sqlparse.statement) :
  parse E (sql (self st)) = stmt :: rest ->
  parse E' (sql (self st)) = stmt :: rest' ->
  _get_csv_headers_from_sql E' st = _get_csv_headers_from_sql E st.
Proof.
  intros H H'.
  destruct (headers_from_sql_statement E st stmt rest H) as (hs & -> & Hm & _).
  destruct (headers_from_sql_statement E' st stmt rest' H')
    as (hs' & -> & Hm' & _).
  congruence.
Qed.

Lemma headers_from_first_statement_witness :
  let E := database None [] in
  let E' := with_parse (fun _ => [select_customers; select_two_tables]) E in
  let st := start (task "SELECT id, name AS customer FROM t" None false
                     (ODict ∅)) in
  _get_csv_headers_from_sql E' st = _get_csv_headers_from_sql E st.
Proof.
  exact (headers_from_first_statement (database None [])
           (with_parse (fun _ => [select_customers; select_two_tables])
              (database None []))
           (start (task "SELECT id, name AS customer FROM t" None false
                     (ODict ∅)))
           select_customers [] [select_two_tables] eq_refl eq_refl).
Defined.

(** ** [_create_csv] *)

(** X9: on a path that can be opened, [_create_csv] returns, and the file
    holds the header row and the rows whatever it held before; no other
    file and nothing of [self] changes; writing the same again leaves the
    files as they are. *)
Theorem create_csv_replaces_file (E : env) (st : state)
    (rs : list (list pyval)) (hs : list string) :
  writable E (csv_file_path (self st)) = true ->
  let out := _create_csv E rs (Some hs) st in
  fst out = Ok tt
  /\ files (outside (snd out)) !! csv_file_path (self st)
     = Some (Csv.writeheader hs +:+ rows_text rs)
  /\ (forall path, path <> csv_file_path (self st) ->
      files (outside (snd out)) !! path = files (outside st) !! path)
  /\ self (snd out) = self st
  /\ files (outside (snd (_create_csv E rs (Some hs) (snd out))))
     = files (outside (snd out)).
Proof.
  intros Hw. cbv zeta.
  split; [rewrite (create_csv_written E st rs hs Hw); reflexivity|].
  split.
  { rewrite (create_csv_written E st rs hs Hw). simpl. apply lookup_insert_eq. }
  split; [intros path Hne; apply create_csv_other_files, Hne|].
  split; [apply create_csv_frame|].
  rewrite (create_csv_written E st rs hs Hw).
  rewrite create_csv_written by exact Hw.
  simpl. apply insert_insert_eq.
Qed.

Lemma create_csv_replaces_file_witness :
  let E := database None [] in
  let st := {| self := task "select a from t" None false (ODict ∅);
               outside := Faults.with_file "/tmp/out.csv" "stale" |} in
  let out := _create_csv E [[PInt 7]] (Some ["a"]) st in
  fst out = Ok tt
  /\ files (outside (snd out)) !! csv_file_path (self st)
     = Some (Csv.writeheader ["a"] +:+ rows_text [[PInt 7]])
  /\ (forall path, path <> csv_file_path (self st) ->
      files (outside (snd out)) !! path = files (outside st) !! path)
  /\ self (snd out) = self st
  /\ files (outside (snd (_create_csv E [[PInt 7]] (Some ["a"]) (snd out))))
     = files (outside (snd out)).
Proof.
  exact (create_csv_replaces_file (database None [])
           {| self := task "select a from t" None false (ODict ∅);
              outside := Faults.with_file "/tmp/out.csv" "stale" |}
           [[PInt 7]] ["a"] eq_refl).
Defined.

Lemma headers_from_sql_one_list_witness :
  let E := database None [] in
  let st := start (task "SELECT id, name AS customer FROM t" None false
                     (ODict ∅)) in
  let ts := [name "id"; comma; ws;
             Sqlparse.Grp Sqlparse.Identifier
               [Sqlparse.Tok Sqlparse.Name "name"; ws;
                Sqlparse.Tok Sqlparse.Keyword "AS"; ws; name "customer"]] in
  exists hs,
    _get_csv_headers_from_sql E st = (Ok hs, st)
    /\ map_result _parse_sql_field_to_csv_header
         (map Sqlparse.value (Sqlparse.get_identifiers ts)) = Ok hs
    /\ length hs = length (Sqlparse.get_identifiers ts).
Proof.
  exact (headers_from_sql_one_list (database None [])
           (start (task "SELECT id, name AS customer FROM t" None false
                     (ODict ∅)))
           [Sqlparse.Tok Sqlparse.DML "SELECT"; ws]
           [ws; Sqlparse.Tok Sqlparse.Keyword "FROM"; ws; name "t"]
           _ [] eq_refl eq_refl eq_refl).
Defined.

(** ** [__init__] *)

(** X11: construction goes through exactly when [parameters] is falsy or a
    dict and, if [increment] is set, both names are given; the operator
    then holds the arguments and the fixed template of the watermark
    query; and the only exception [__init__] raises is [SyntaxError]. *)
Theorem init_succeeds_iff (a : init_args) :
  ((exists s, __init__ a = Ok s) <->
   (truthy_obj (arg_parameters a) = false
    \/ isinstance_dict (arg_parameters a) = true)
   /\ (arg_increment a = true ->
       arg_last_modified_fname a <> "" /\ arg_destination_table a <> ""))
  /\ (forall s, __init__ a = Ok s ->
        sql s = arg_sql a
        /\ postgres_conn_id s = arg_postgres_conn_id a
        /\ destination_conn_id s = arg_destination_conn_id a
        /\ csv_file_path s = arg_csv_file_path a
        /\ parameters s = arg_parameters a
        /\ increment s = arg_increment a
        /\ headers s = arg_headers a
        /\ destination_table s = arg_destination_table a
        /\ last_modified_fname s = arg_last_modified_fname a
        /\ default_last_updated_value s = arg_default_last_updated_value a
        /\ last_updated_sql s
           = "SELECT MAX({{ task.last_modified_fname }}) FROM {{ task.destination_table }}")
  /\ (forall e, __init__ a = Raise e -> exists msg, e = SyntaxError msg).
Proof.
  unfold __init__, nonempty.
  cbn [parameters increment last_modified_fname destination_table].
  destruct (truthy_obj (arg_parameters a)) eqn:Ht;
    destruct (isinstance_dict (arg_parameters a)) eqn:Hd;
    destruct (arg_increment a) eqn:Hi;
    (destruct (String.eqb (arg_last_modified_fname a) "") eqn:Hf;
       [apply String.eqb_eq in Hf | apply String.eqb_neq in Hf]);
    (destruct (String.eqb (arg_destination_table a) "") eqn:Hb;
       [apply String.eqb_eq in Hb | apply String.eqb_neq in Hb]);
    cbn [andb negb];
    (split; [split; [intros [s Hs] | intros (Hp & Hn)]
            | split; [intros s Hs | intros e He]]).
  all: try discriminate.
  all: try (inversion He; eauto; fail).
  all: try (inversion Hs; subst; cbn; repeat split; fail).
  all: try (eexists; reflexivity).
  all: try (split; [auto|]; intros Hinc; first [discriminate | auto]; fail).
  all: try (destruct Hp; discriminate).
  all: destruct (Hn eq_refl) as [Hn1 Hn2]; congruence.
Qed.

(** ** [execute] *)

(** X12: a run that is not incremental sends one query, the main query on
    the source connection with the parameters as supplied, whether it ends
    well or raises; the destination is not asked anything. *)
Theorem plain_run_sends_one_query (E : env) (st : state) :
  increment (self st) = false ->
  queries (outside (snd (execute E st)))
  = queries (outside st) ++ [main_query (self st) (parameters (self st))].
Proof.
  intros Hi. rewrite execute_eq, bind_last_updated_value_eq, Hi.
  pose proof (fetch_results_frame E st) as (_ & Hq).
  destruct (fetch_results E st) as [[rs|e] st2]; simpl in Hq; [|exact Hq].
  pose proof (finish_frame E rs st2) as (_ & _ & _ & Hq2). cbv zeta in Hq2.
  rewrite Hq2. exact Hq.
Qed.

Lemma plain_run_sends_one_query_witness :
  let E := database None [[PInt 1; PStr "Ann"]] in
  let st := start (task "SELECT id, name AS customer FROM t" None false
                     (ODict {["limit" := PInt 10]})) in
  queries (outside (snd (execute E st)))
  = queries (outside st) ++ [main_query (self st) (parameters (self st))].
Proof.
  exact (plain_run_sends_one_query (database None [[PInt 1; PStr "Ann"]])
           (start (task "SELECT id, name AS customer FROM t" None false
                     (ODict {["limit" := PInt 10]})))
           eq_refl).
Defined.

(** X13: an incremental run on [parameters] that is not a dict (the [None]
    or the empty list [__init__] lets through) raises [AttributeError] once
    the watermark is found: the watermark query is the only one sent, the
    main query is not, and no file is written. *)
Theorem incremental_run_needs_dict (E : env) (st : state)
    (v : pyval) (rest : list pyval) :
  increment (self st) = true ->
  isinstance_dict (parameters (self st)) = false ->
  get_first E (destination_conn_id (self st)) (last_updated_sql (self st))
    = Ok (Some (v :: rest)) ->
  fst (execute E st) = Raise AttributeError
  /\ queries (outside (snd (execute E st)))
     = queries (outside st) ++ [watermark_query (self st)]
  /\ files (outside (snd (execute E st))) = files (outside st).
Proof.
  intros Hi Hd Hg.
  rewrite execute_eq, bind_last_updated_value_eq, Hi.
  destruct (extract_row E st v rest Hg) as [msg ->]. simpl.
  destruct (parameters (self st)); try discriminate; simpl; auto.
Qed.

Lemma incremental_run_needs_dict_witness :
  let E := database (Some [PInt 5]) [] in
  let st := start (task "SELECT id, name AS customer FROM t" None true
                     (OScalar PNone)) in
  fst (execute E st) = Raise AttributeError
  /\ queries (outside (snd (execute E st)))
     = queries (outside st) ++ [watermark_query (self st)]
  /\ files (outside (snd (execute E st))) = files (outside st).
Proof.
  exact (incremental_run_needs_dict (database (Some [PInt 5]) [])
           (start (task "SELECT id, name AS customer FROM t" None true
                     (OScalar PNone)))
           (PInt 5) [] eq_refl eq_refl eq_refl).
Defined.

(** X14: a run, however it ends, leaves every file other than the one at
    [csv_file_path] as it was. *)
Theorem execute_keeps_other_files (E : env) (st : state) (path : string) :
  path <> csv_file_path (self st) ->
  files (outside (snd (execute E st))) !! path = files (outside st) !! path.
Proof.
  intros Hne. rewrite execute_eq.
  pose proof (bind_files E st) as Hb.
  pose proof (bind_last_updated_value_frame E st) as (Hs1 & _).
  destruct (bind_last_updated_value E st) as [[[]|e] st1]; simpl in *;
    [|rewrite Hb; reflexivity].
  pose proof (fetch_files E st1) as Hf.
  pose proof (fetch_results_frame E st1) as (Hs2 & _).
  destruct (fetch_results E st1) as [[rs|e] st2]; simpl in *;
    [|rewrite Hf, Hb; reflexivity].
  pose proof (resolve_headers_frame E st2) as (Hs3 & _ & _ & Ho).
  destruct (resolve_headers E st2) as [[[]|e] st3]; simpl in *;
    [|rewrite Ho, Hf, Hb; reflexivity].
  rewrite create_csv_other_files.
  - rewrite Ho, Hf, Hb. reflexivity.
  - unfold same_settings in Hs1, Hs3. rewrite Hs2 in Hs3.
    destruct Hs1 as (_ & _ & _ & H1 & _). destruct Hs3 as (_ & _ & _ & H3 & _).
    congruence.
Qed.

Lemma execute_keeps_other_files_witness :
  let E := database None [[PInt 1; PStr "Ann"]] in
  let st := {| self := task "SELECT id, name AS customer FROM t" None false
                         (ODict ∅);
               outside := Faults.with_file "/tmp/other.csv" "kept" |} in
  files (outside (snd (execute E st))) !! "/tmp/other.csv"
  = files (outside st) !! "/tmp/other.csv".
Proof.
  exact (execute_keeps_other_files (database None [[PInt 1; PStr "Ann"]])
           {| self := task "SELECT id, name AS customer FROM t" None false
                        (ODict ∅);
              outside := Faults.with_file "/tmp/other.csv" "kept" |}
           "/tmp/other.csv" ltac:(discriminate)).
Defined.

(** X15: when the watermark step has gone through and the main query
    raises, the run raises the same exception; no file is created or
    emptied, and [self.headers] is left as it was. *)
Theorem failed_query_leaves_no_file (E : env) (st st1 : state) (e : exn) :
  bind_last_updated_value E st = (Ok tt, st1) ->
  get_records E (postgres_conn_id (self st)) (sql (self st))
    (parameters (self st1)) = Raise e ->
  fst (execute E st) = Raise e
  /\ files (outside (snd (execute E st))) = files (outside st)
  /\ headers (self (snd (execute E st))) = headers (self st).
Proof.
  intros Hb Hq.
  pose proof (bind_files E st) as Hf.
  pose proof (bind_last_updated_value_frame E st) as (Hs & Hh & _).
  rewrite Hb in Hf, Hs, Hh. simpl in Hf, Hs, Hh.
  rewrite execute_eq, Hb, fetch_results_eq. cbv zeta.
  unfold same_settings in Hs. destruct Hs as (Hsql & Hconn & _).
  rewrite Hsql, Hconn, Hq. simpl. auto.
Qed.

Lemma failed_query_leaves_no_file_witness :
  let E := Faults.broken_source (Some [PNone]) (DatabaseError "relation t does not exist") in
  let st := {| self := task "SELECT id, name AS customer FROM t" None true
                         (ODict ∅);
               outside := Faults.with_file "/tmp/out.csv" "yesterday" |} in
  fst (execute E st) = Raise (DatabaseError "relation t does not exist")
  /\ files (outside (snd (execute E st))) = files (outside st)
  /\ headers (self (snd (execute E st))) = headers (self st).
Proof.
  exact (failed_query_leaves_no_file
           (Faults.broken_source (Some [PNone])
              (DatabaseError "relation t does not exist"))
           {| self := task "SELECT id, name AS customer FROM t" None true
                        (ODict ∅);
              outside := Faults.with_file "/tmp/out.csv" "yesterday" |}
           _ (DatabaseError "relation t does not exist") eq_refl eq_refl).
Defined.

(** ** Running a task again *)
Module RerunFacts.
Import Py Operator PyStrFacts OperatorFacts RunFacts.

Lemma create_csv_ok (E : env) (st st' : state) rs h :
  _create_csv E rs h st = (Ok tt, st') ->
  writable E (csv_file_path (self st)) = true
  /\ exists hs,
       h = Some hs
       /\ files (outside st')
          = <[csv_file_path (self st) := Csv.writeheader hs +:+ rows_text rs]>
              (files (outside st)).
Proof.
  destruct (writable E (csv_file_path (self st))) eqn:Hw.
  - destruct h as [hs|].
    + rewrite (create_csv_written E st rs hs Hw). intros H.
      inversion H; subst. split; [reflexivity|]. exists hs. auto.
    + unfold _create_csv. monad_unfold. cbv beta iota. rewrite Hw.
      discriminate.
  - rewrite (create_csv_refused E st rs h Hw). discriminate.
Qed.

Lemma headers_from_sql_fst (E : env) (st st' : state) :
  sql (self st') = sql (self st) ->
  fst (_get_csv_headers_from_sql E st') = fst (_get_csv_headers_from_sql E st).
Proof.
  intros H. unfold _get_csv_headers_from_sql. monad_unfold. simpl.
  rewrite H. destruct (index (parse E (sql (self st))) 0); reflexivity.
Qed.

(** Once the watermark is bound, binding it again changes nothing of
    [self]. *)
Lemma bind_again (E : env) (st sa st' : state) :
  bind_last_updated_value E st = (Ok tt, sa) ->
  same_settings (self sa) (self st') ->
  parameters (self st') = parameters (self sa) ->
  exists sa',
    bind_last_updated_value E st' = (Ok tt, sa')
    /\ self sa' = self st'
    /\ files (outside sa') = files (outside st').
Proof.
  intros Hb Hs Hp.
  pose proof (bind_last_updated_value_frame E st) as (Hs0 & _).
  rewrite Hb in Hs0. simpl in Hs0.
  assert (same_settings (self st) (self st')) as Hs'
    by (eapply same_settings_trans; eauto).
  unfold same_settings in Hs'.
  destruct Hs' as (_ & _ & Hdc & _ & Hinc & _ & _ & Hlus & Hdef).
  rewrite bind_last_updated_value_eq in Hb.
  rewrite bind_last_updated_value_eq, Hinc.
  destruct (increment (self st)); [|exists st'; auto].
  pose proof (extract_fst E st) as Hv.
  pose proof (extract_self E st) as Hself.
  destruct (_extract_last_updated_value E st) as [[v|e] s1]; [|discriminate].
  simpl in Hv, Hself.
  destruct (dict_update (parameters (self s1)) "last_updated_value" v)
    as [p|e] eqn:Hd; [|discriminate].
  inversion Hb; subst sa. clear Hb. simpl in Hp.
  pose proof (extract_fst E st') as Hv'.
  pose proof (extract_self E st') as Hself'.
  pose proof (extract_files E st') as Hfiles'.
  rewrite Hdc, Hlus, Hdef, <- Hv in Hv'.
  destruct (_extract_last_updated_value E st') as [r s1']. simpl in *.
  rewrite Hv'. clear Hv'.
  unfold dict_update in Hd. destruct (parameters (self s1)) as [| |d];
    try discriminate.
  injection Hd as Hd. rewrite <- Hd in Hp.
  rewrite Hself', Hp. simpl. rewrite insert_insert_eq.
  eexists. split; [reflexivity|]. simpl. rewrite Hself'.
  split; [|exact Hfiles']. rewrite <- Hp. apply set_parameters_same.
Qed.

(** Once the headers are resolved, resolving them again changes nothing. *)
Lemma resolve_again (E : env) (sb sc s : state) :
  resolve_headers E sb = (Ok tt, sc) ->
  self s = self sc ->
  resolve_headers E s = (Ok tt, s).
Proof.
  intros Hr Hs. rewrite resolve_headers_eq in Hr. rewrite resolve_headers_eq.
  destruct (truthy_headers (headers (self s))) eqn:Ht; [reflexivity|].
  destruct (truthy_headers (headers (self sb))) eqn:Htb.
  { inversion Hr; subst sc. congruence. }
  pose proof (headers_from_sql_state E sb) as Hst.
  destruct (_get_csv_headers_from_sql E sb) as [[hs|e] sb'] eqn:Hg;
    [|discriminate].
  simpl in Hst. subst sb'. inversion Hr; subst sc. simpl in Hs.
  pose proof (headers_from_sql_state E s) as Hst'.
  pose proof (headers_from_sql_fst E sb s) as Hfst.
  rewrite Hg in Hfst. simpl in Hfst.
  destruct (_get_csv_headers_from_sql E s) as [r s']. simpl in *. subst s'.
  rewrite Hfst by (rewrite Hs; reflexivity).
  f_equal. apply set_self_same.
  replace (Some hs) with (headers (self s)) by (rewrite Hs; reflexivity).
  apply set_headers_same.
Qed.

End RerunFacts.

Import RerunFacts.

(** X16: a run that ended well can be run again on the operator it left
    behind, against connections that answer as before: it ends well again,
    leaves [self] as the first run left it (the watermark is stored once,
    the headers are kept), and leaves the files as they are. *)
Theorem rerun_changes_nothing (E : env) (st st1 : state) :
  execute E st = (Ok tt, st1) ->
  exists st2,
    execute E st1 = (Ok tt, st2)
    /\ self st2 = self st1
    /\ files (outside st2) = files (outside st1).
Proof.
  intros Hx.
  destruct (execute_ok_steps E st st1 Hx) as (sa & rs & sb & sc & Hb & Hf & Hr & Hc).
  pose proof (fetch_results_frame E sa) as (Hsb & _).
  pose proof (fetch_fst E sa) as Hrs.
  rewrite Hf in Hsb, Hrs. simpl in Hsb, Hrs.
  pose proof (resolve_headers_frame E sb) as (Hsc & Hpc & _ & _).
  rewrite Hr in Hsc, Hpc. simpl in Hsc, Hpc. rewrite Hsb in Hsc, Hpc.
  destruct (create_csv_frame E sc rs (headers (self sc))) as (Hs1 & _).
  rewrite Hc in Hs1. simpl in Hs1.
  destruct (create_csv_ok E sc st1 rs _ Hc) as (Hw & hs & Hhs & Hfiles).
  (* the watermark step *)
  destruct (bind_again E st sa st1 Hb) as (sa' & Hb' & Hsa' & Hfa');
    [rewrite Hs1; exact Hsc|rewrite Hs1; exact Hpc|].
  (* the main query *)
  pose proof (fetch_results_frame E sa') as (Hsb' & _).
  pose proof (fetch_fst E sa') as Hrs'.
  pose proof (fetch_files E sa') as Hfb'.
  unfold same_settings in Hsc. destruct Hsc as (Hsql & Hconn & _ & Hpath & _).
  rewrite Hsa', Hs1, Hsql, Hconn, Hpc, <- Hrs in Hrs'.
  destruct (fetch_results E sa') as [r sb'] eqn:Hf'. simpl in *. subst r.
  (* the headers and the file *)
  assert (self sb' = self sc) as Hsbc by congruence.
  pose proof (resolve_again E sb sc sb' Hr Hsbc) as Hr'.
  rewrite execute_eq, Hb', Hf', Hr', Hsbc, Hhs.
  rewrite create_csv_written by (rewrite Hsbc; exact Hw).
  eexists. split; [reflexivity|]. simpl. split; [congruence|].
  rewrite Hsbc, Hfb', Hfa', Hfiles. apply insert_insert_eq.
Qed.

Lemma rerun_changes_nothing_witness :
  let E := database (Some [PNone]) [[PInt 1; PStr "Ann"]] in
  let st := start (task "SELECT id, name AS customer FROM t" None true
                     (ODict ∅)) in
  exists st2,
    execute E (snd (execute E st)) = (Ok tt, st2)
    /\ self st2 = self (snd (execute E st))
    /\ files (outside st2) = files (outside (snd (execute E st))).
Proof.
  exact (rerun_changes_nothing
           (database (Some [PNone]) [[PInt 1; PStr "Ann"]])
           (start (task "SELECT id, name AS customer FROM t" None true
                     (ODict ∅)))
           _ eq_refl).
Defined.
